(** * Animal-farm backend: a shallow embedding of [src/dev.js]

    The program is an Express application over Mongoose models [Category]
    and [Animal], with a Multer middleware for the image of a new animal.
    Each controller of [dev.js] is embedded below as a function in a small
    state-and-exception monad over a [World]: the two collections of the
    document store, the directory of uploaded files, and the log of the
    calls that controllers issue on the models.

    The libraries the controllers call are embedded with the behaviour the
    controllers rely on:
    - an ObjectId is a 96-bit number written as 24 hexadecimal characters;
      [ObjectId.isValid] accepts exactly those strings, and Mongoose casts a
      string to an ObjectId when a query is run, raising a [CastError] on
      any other string;
    - a collection keeps its documents in insertion order, with unique
      [_id]s; the store is always reachable, so the only exceptions are the
      ones Mongoose and the driver raise themselves;
    - Multer's [single] writes the one file of the request to disk, and
      passes a [MulterError] to Express on a file that reaches the size
      limit or on an unexpected file;
    - an error passed to Express with no error-handling middleware
      registered is answered by Express's default handler;
    - the static middleware cuts the query off the request target,
      decodes the name that follows its mount path and sends the file of
      this name; the targets that name no entry of the upload directory
      itself are marked as outside the model.
    The clock ([Date.now()]) is an input of each request. *)

From Stdlib Require Import NArith Ascii String List Bool Lia.
From stdpp Require Import base option list strings gmap pretty.

Local Open Scope string_scope.
Local Open Scope N_scope.

(** ** ObjectIds *)

Module ObjectId.

(** The 96 bits of an ObjectId, as a number. *)
Abbreviation t := N (only parsing).

(** The value of a hexadecimal character, either case. *)
Definition hex_val (c : ascii) : option N :=
  let n := N_of_ascii c in
  if (48 <=? n) && (n <=? 57) then Some (n - 48)
  else if (97 <=? n) && (n <=? 102) then Some (n - 87)
  else if (65 <=? n) && (n <=? 70) then Some (n - 55)
  else None.

Definition hex_digit (d : N) : ascii :=
  if d <? 10 then ascii_of_N (48 + d) else ascii_of_N (87 + d).

Definition is_hex (c : ascii) : bool :=
  match hex_val c with Some _ => true | None => false end.

Fixpoint all_hex (s : string) : bool :=
  match s with
  | EmptyString => true
  | String c s' => is_hex c && all_hex s'
  end.

(** [mongoose.Types.ObjectId.isValid] on a string. *)
Definition isValid (s : string) : bool :=
  (N.of_nat (String.length s) =? 24) && all_hex s.

Fixpoint parse_hex (acc : N) (s : string) : option N :=
  match s with
  | EmptyString => Some acc
  | String c s' =>
      match hex_val c with
      | Some d => parse_hex (16 * acc + d) s'
      | None => None
      end
  end.

(** [new ObjectId(s)]: the value of a valid string, [None] where the
    constructor throws. *)
Definition of_string (s : string) : option t :=
  if isValid s then parse_hex 0 s else None.

(** The [k] low hexadecimal digits of [n], most significant first. *)
Fixpoint hex_of (k : nat) (n : N) : string :=
  match k with
  | O => EmptyString
  | S k' => String (hex_digit ((n / 16 ^ N.of_nat k') mod 16)) (hex_of k' n)
  end.

(** [id.toString()], as an identifier appears in a response and in a
    later request path. *)
Definition to_string (o : t) : string := hex_of 24 o.

Definition in_range (o : t) : Prop := o < 2 ^ 96.

End ObjectId.

(** ** Documents *)

(** A field of a document is [None] while it is undefined: the timestamps
    of a document that has not been saved, a field the constructor was
    given no value for. *)
Record Category := mkCategory {
  c_id : ObjectId.t;
  c_name : option string;
  c_createdAt : option N;
  c_updatedAt : option N;
}.

Record Animal := mkAnimal {
  a_id : ObjectId.t;
  a_name : option string;
  a_image : option string;
  a_category : option ObjectId.t;
  a_createdAt : option N;
  a_updatedAt : option N;
}.

(** An animal after [.populate('category')]: the reference is replaced by
    the referenced document, or by [null] when there is none. *)
Record PopulatedAnimal := mkPopulated {
  pa_id : ObjectId.t;
  pa_name : option string;
  pa_image : option string;
  pa_category : option Category;
  pa_createdAt : option N;
  pa_updatedAt : option N;
}.

(** ** Requests and responses *)

(** A file of a multipart request, as Multer presents it to its storage:
    the name of its field, its original name (the base name of the file
    name that was sent) and its size in bytes. *)
Record Part := mkPart {
  fieldname : string;
  originalname : string;
  size : N;
}.

(** [req.file], as Multer's disk storage fills it. *)
Record File := mkFile {
  filename : string;
  file_originalname : string;
  file_size : N;
}.

Record Request := mkRequest {
  params : gmap string string;
  body : gmap string string;
  parts : list Part;
  file : option File;
}.

(** A value handed to a query where an ObjectId is expected: a string of
    the request, possibly undefined, or the [_id] of a document. *)
Inductive IdArg :=
| IdString (s : option string)
| IdObject (o : ObjectId.t).

Inductive Error :=
| CastError (path : string) (value : string)
| ValidationError (model path : string)
| DuplicateKey (model : string) (o : ObjectId.t)
| MulterError (code field : string).

Inductive Json :=
| JMessage (message : string)
| JMessageError (message : string) (error : Error)
| JMessageErrorMessage (message : string) (error : Error)
| JCategories (cs : list Category)
| JCategory (c : Category)
| JCategoryAnimals (category : Category) (animals : list PopulatedAnimal)
| JAnimals (l : list PopulatedAnimal)
| JAnimalAdded (message : string) (animal : Animal)
| ErrorPage (e : Error).

Record Response := mkResponse {
  status : N;
  json : Json;
}.

(** ** The world: store, upload directory, log of model calls *)

Inductive StoreCall :=
| Category_find_call
| Category_findById_call (id : option string)
| Category_findOne_call (name : option string)
| Category_findByIdAndUpdate_call (id name : option string)
| Category_findByIdAndDelete_call (id : option string)
| Category_save_call (c : Category)
| Animal_find_call (category : option IdArg)
| Animal_findByIdAndDelete_call (id : option string)
| Animal_save_call (a : Animal).

Record World := mkWorld {
  categories : list Category;
  animals : list Animal;
  next_oid : N;
  uploads : gmap string N;
  calls : list StoreCall;
}.

(** ** The monad of controller bodies *)

Inductive Outcome (A : Type) :=
| Ok (a : A)
| Throw (e : Error).
Arguments Ok {A} a.
Arguments Throw {A} e.

Definition M (A : Type) : Type := World -> Outcome A * World.

Definition ret {A} (a : A) : M A := fun w => (Ok a, w).

Definition bind {A B} (m : M A) (k : A -> M B) : M B :=
  fun w => match m w with
           | (Ok a, w') => k a w'
           | (Throw e, w') => (Throw e, w')
           end.

Definition throw {A} (e : Error) : M A := fun w => (Throw e, w).

Definition gets {A} (f : World -> A) : M A := fun w => (Ok (f w), w).

Definition modify (f : World -> World) : M unit := fun w => (Ok tt, f w).

(** [try { body } catch (error) { handler }] around a controller body that
    ends by sending a response. *)
Definition try_catch (m : M Response) (h : Error -> Response)
  : World -> Response * World :=
  fun w => match m w with
           | (Ok r, w') => (r, w')
           | (Throw e, w') => (h e, w')
           end.

Notation "'let*' x ':=' m 'in' k" := (bind m (fun x => k))
  (at level 10, x name, m at level 200, k at level 200,
   format "'[v' 'let*'  x  ':='  m  'in' '/' k ']'").

Definition set_categories (cs : list Category) (w : World) : World :=
  mkWorld cs (animals w) (next_oid w) (uploads w) (calls w).

Definition set_animals (l : list Animal) (w : World) : World :=
  mkWorld (categories w) l (next_oid w) (uploads w) (calls w).

Definition set_next_oid (n : N) (w : World) : World :=
  mkWorld (categories w) (animals w) n (uploads w) (calls w).

Definition set_uploads (u : gmap string N) (w : World) : World :=
  mkWorld (categories w) (animals w) (next_oid w) u (calls w).

Definition record (c : StoreCall) (w : World) : World :=
  mkWorld (categories w) (animals w) (next_oid w) (uploads w) (calls w ++ [c]).

(** A call on a model is logged as it is issued. *)
Definition log (c : StoreCall) : M unit := modify (record c).

(** ** JavaScript values of a request *)

(** [!v] on a value that is a string or undefined. *)
Definition falsy (v : option string) : bool :=
  match v with
  | None => true
  | Some s => bool_decide (s = "")
  end.

(** [mongoose.Types.ObjectId.isValid(v)]. *)
Definition ObjectId_isValid (v : option string) : bool :=
  match v with
  | None => false
  | Some s => ObjectId.isValid s
  end.

(** ** Mongoose models *)

(** Mongoose casts the value of an ObjectId path when the query runs. An
    undefined value is cast to null, which equals no ObjectId. *)
Definition castObjectId (path : string) (v : IdArg) : M (option ObjectId.t) :=
  match v with
  | IdObject o => ret (Some o)
  | IdString None => ret None
  | IdString (Some s) =>
      match ObjectId.of_string s with
      | Some o => ret (Some o)
      | None => throw (CastError path s)
      end
  end.

(** [new ObjectId()]: twelve bytes that the driver takes from its own
    supply, here a counter that wraps at 96 bits. *)
Definition new_ObjectId : M ObjectId.t :=
  fun w => (Ok (next_oid w mod 2 ^ 96), set_next_oid (next_oid w + 1) w).

Definition has_id (o : option ObjectId.t) (c : Category) : bool :=
  bool_decide (Some (c_id c) = o).

Definition animal_has_id (o : option ObjectId.t) (a : Animal) : bool :=
  bool_decide (Some (a_id a) = o).

(** The first document that satisfies [p] replaced by its image under [f]. *)
Fixpoint update_first {A} (p : A -> bool) (f : A -> A) (l : list A) : list A :=
  match l with
  | [] => []
  | x :: l' => if p x then f x :: l' else x :: update_first p f l'
  end.

(** The first document that satisfies [p] removed. *)
Fixpoint remove_first {A} (p : A -> bool) (l : list A) : list A :=
  match l with
  | [] => []
  | x :: l' => if p x then l' else x :: remove_first p l'
  end.

(** [Category.find()] *)
Definition Category_find : M (list Category) :=
  let* _ := log Category_find_call in
  gets categories.

(** [Category.findById(id)] *)
Definition Category_findById (id : option string) : M (option Category) :=
  let* _ := log (Category_findById_call id) in
  let* o := castObjectId "_id" (IdString id) in
  gets (fun w => List.find (has_id o) (categories w)).

(** [Category.findOne({ name })] *)
Definition Category_findOne (name : option string) : M (option Category) :=
  let* _ := log (Category_findOne_call name) in
  gets (fun w => List.find (fun c => bool_decide (c_name c = name))
                           (categories w)).

(** [Category.findByIdAndUpdate(id, { name }, { new: true })]; the schema's
    [timestamps] option refreshes [updatedAt]. *)
Definition Category_findByIdAndUpdate (now : N) (id name : option string)
  : M (option Category) :=
  let* _ := log (Category_findByIdAndUpdate_call id name) in
  let* o := castObjectId "_id" (IdString id) in
  let* cs := gets categories in
  let rename c := mkCategory (c_id c) name (c_createdAt c) (Some now) in
  let* _ := modify (set_categories (update_first (has_id o) rename cs)) in
  ret (rename <$> List.find (has_id o) cs).

(** [Category.findByIdAndDelete(id)] *)
Definition Category_findByIdAndDelete (id : option string)
  : M (option Category) :=
  let* _ := log (Category_findByIdAndDelete_call id) in
  let* o := castObjectId "_id" (IdString id) in
  let* cs := gets categories in
  let* _ := modify (set_categories (remove_first (has_id o) cs)) in
  ret (List.find (has_id o) cs).

(** [new Category({ name })] *)
Definition new_Category (name : option string) : M Category :=
  let* o := new_ObjectId in
  ret (mkCategory o name None None).

(** [doc.save()] of a new category: validation of the schema ([name] is
    required), timestamps, insertion under the unique index on [_id]. The
    saved document is the one the caller holds. *)
Definition Category_save (now : N) (c : Category) : M Category :=
  let* _ := log (Category_save_call c) in
  if falsy (c_name c) then throw (ValidationError "Category" "name") else
  let* cs := gets categories in
  if existsb (has_id (Some (c_id c))) cs
  then throw (DuplicateKey "categories" (c_id c)) else
  let c' := mkCategory (c_id c) (c_name c) (Some now) (Some now) in
  let* _ := modify (set_categories (cs ++ [c'])) in
  ret c'.

(** [.populate('category')] on one animal. *)
Definition populate (cs : list Category) (a : Animal) : PopulatedAnimal :=
  mkPopulated (a_id a) (a_name a) (a_image a)
    (match a_category a with
     | Some o => List.find (has_id (Some o)) cs
     | None => None
     end)
    (a_createdAt a) (a_updatedAt a).

(** [Animal.find(filter).populate('category')], the filter being either
    empty or [{ category: v }]. *)
Definition Animal_find_populate (category : option IdArg)
  : M (list PopulatedAnimal) :=
  let* _ := log (Animal_find_call category) in
  let* found :=
    match category with
    | None => gets animals
    | Some v =>
        let* o := castObjectId "category" v in
        gets (fun w => List.filter
                         (fun a => bool_decide (a_category a = o))
                         (animals w))
    end in
  let* cs := gets categories in
  ret (populate cs <$> found).

(** [Animal.findByIdAndDelete(id)] *)
Definition Animal_findByIdAndDelete (id : option string) : M (option Animal) :=
  let* _ := log (Animal_findByIdAndDelete_call id) in
  let* o := castObjectId "_id" (IdString id) in
  let* l := gets animals in
  let* _ := modify (set_animals (remove_first (animal_has_id o) l)) in
  ret (List.find (animal_has_id o) l).

(** [new Animal({ name, image, category })] *)
Definition new_Animal (name image : option string) (category : ObjectId.t)
  : M Animal :=
  let* o := new_ObjectId in
  ret (mkAnimal o name image (Some category) None None).

(** [doc.save()] of a new animal. *)
Definition Animal_save (now : N) (a : Animal) : M Animal :=
  let* _ := log (Animal_save_call a) in
  if falsy (a_name a) then throw (ValidationError "Animal" "name") else
  let* l := gets animals in
  if existsb (animal_has_id (Some (a_id a))) l
  then throw (DuplicateKey "animals" (a_id a)) else
  let a' := mkAnimal (a_id a) (a_name a) (a_image a) (a_category a)
                     (Some now) (Some now) in
  let* _ := modify (set_animals (l ++ [a'])) in
  ret a'.

(** ** Controllers *)

Definition Handler : Type := World -> Response * World.

(** [return res.status(s).json(j)] outside a [try] block. *)
Definition send (s : N) (j : Json) : Handler := fun w => (mkResponse s j, w).

(** [res.status(s).json(j)] as the last statement of a [try] block. *)
Definition respond (s : N) (j : Json) : M Response := ret (mkResponse s j).

Definition getCategories (req : Request) : Handler :=
  try_catch
    (let* categories := Category_find in
     if (length categories =? 0)%nat
     then respond 404 (JMessage "No categories found")
     else respond 200 (JCategories categories))
    (fun error => mkResponse 500 (JMessageError "Error fetching categories" error)).

Definition getCategoryById (req : Request) : Handler :=
  let categoryId := params req !! "categoryId" in
  if negb (ObjectId_isValid categoryId)
  then send 400 (JMessage "Invalid category ID format") else
  try_catch
    (let* category := Category_findById categoryId in
     match category with
     | None => respond 404 (JMessage "Category not found")
     | Some category =>
         let* animals := Animal_find_populate (Some (IdString categoryId)) in
         respond 200 (JCategoryAnimals category animals)
     end)
    (fun error =>
       mkResponse 500 (JMessageError "Error fetching category and animals" error)).

Definition addCategory (now : N) (req : Request) : Handler :=
  let name := body req !! "name" in
  try_catch
    (if falsy name
     then respond 400 (JMessage "Category name is required") else
     let* newCategory := new_Category name in
     let* newCategory := Category_save now newCategory in
     respond 201 (JCategory newCategory))
    (fun error => mkResponse 500 (JMessageError "Error adding category" error)).

Definition updateCategory (now : N) (req : Request) : Handler :=
  let categoryId := params req !! "categoryId" in
  let name := body req !! "name" in
  if negb (ObjectId_isValid categoryId)
  then send 400 (JMessage "Invalid category ID format") else
  if falsy name
  then send 400 (JMessage "Category name is required to update") else
  try_catch
    (let* updatedCategory := Category_findByIdAndUpdate now categoryId name in
     match updatedCategory with
     | None => respond 404 (JMessage "Category not found")
     | Some updatedCategory => respond 200 (JCategory updatedCategory)
     end)
    (fun error => mkResponse 500 (JMessageError "Error updating category" error)).

Definition deleteCategory (req : Request) : Handler :=
  let id := params req !! "id" in
  if negb (ObjectId_isValid id)
  then send 400 (JMessage "Invalid category ID format") else
  try_catch
    (let* deletedCategory := Category_findByIdAndDelete id in
     match deletedCategory with
     | None => respond 404 (JMessage "Category not found")
     | Some _ => respond 200 (JMessage "Category deleted successfully")
     end)
    (fun error => mkResponse 500 (JMessageError "Error deleting category" error)).

Definition getAnimals (req : Request) : Handler :=
  try_catch
    (let* animals := Animal_find_populate None in
     respond 200 (JAnimals animals))
    (fun error => mkResponse 500 (JMessageError "Error fetching animals" error)).

Definition addAnimal (now : N) (req : Request) : Handler :=
  try_catch
    (let name := body req !! "name" in
     let categoryId := params req !! "categoryId" in
     let image :=
       match file req with
       | Some f => Some ("/uploads/animals/" ++ filename f)
       | None => None
       end in
     if falsy categoryId
     then respond 400 (JMessage "Missing Category Id") else
     if falsy name
     then respond 400 (JMessage "Missing Image required fields.") else
     if falsy image
     then respond 400 (JMessage "Missing required fields.") else
     let* category := Category_findById categoryId in
     match category with
     | None => respond 404 (JMessage "Category not found")
     | Some category =>
         let* newAnimal := new_Animal name image (c_id category) in
         let* newAnimal := Animal_save now newAnimal in
         respond 201 (JAnimalAdded "Animal added successfully." newAnimal)
     end)
    (fun error =>
       mkResponse 500
         (JMessageErrorMessage "Internal server error while adding animal." error)).

Definition deleteAnimal (req : Request) : Handler :=
  try_catch
    (let id := params req !! "id" in
     let* _ := Animal_findByIdAndDelete id in
     respond 200 (JMessage "Animal deleted successfully"))
    (fun error => mkResponse 500 (JMessageError "Error deleting animal" error)).

Definition getAnimalsByCategoryId (req : Request) : Handler :=
  let categoryId := params req !! "categoryId" in
  try_catch
    (let* animals := Animal_find_populate (Some (IdString categoryId)) in
     if (length animals =? 0)%nat
     then respond 404 (JMessage "No animals found in this category")
     else respond 200 (JAnimals animals))
    (fun error =>
       mkResponse 500 (JMessageError "Error fetching animals by category ID" error)).

Definition getAnimalsByCategoryName (req : Request) : Handler :=
  let categoryName := params req !! "categoryName" in
  try_catch
    (let* category := Category_findOne categoryName in
     match category with
     | None => respond 404 (JMessage "Category not found")
     | Some category =>
         let* animals :=
           Animal_find_populate (Some (IdObject (c_id category))) in
         if (length animals =? 0)%nat
         then respond 404 (JMessage "No animals found in this category")
         else respond 200 (JAnimals animals)
     end)
    (fun error =>
       mkResponse 500 (JMessageError "Error fetching animals by category name" error)).

(** ** The upload middleware and the routes *)

(** [limits: { fileSize: 5 * 1024 * 1024 }] *)
Definition fileSize : N := 5 * 1024 * 1024.

(** [filename] of the disk storage: [Date.now() + '-' + file.originalname]. *)
Definition storage_filename (now : N) (p : Part) : string :=
  pretty now ++ "-" ++ originalname p.

(** What a middleware hands to Express: [next()] or [next(err)]. *)
Inductive Next :=
| Pass (req : Request)
| Reject (e : Error).

(** [multer({ storage, limits }).single('image')]. A request with no file
    part passes untouched. The first file part must be the field [image];
    it is streamed to [uploadDir] under its storage name and becomes
    [req.file]. A file that reaches the limit, or any further file part,
    fails the request, and Multer removes what it had written. *)
Definition uploadAnimalImage (now : N) (req : Request)
  : World -> Next * World :=
  fun w =>
    match parts req with
    | [] => (Pass req, w)
    | p :: rest =>
        if negb (bool_decide (fieldname p = "image"))
        then (Reject (MulterError "LIMIT_UNEXPECTED_FILE" (fieldname p)), w)
        else
          let name := storage_filename now p in
          if fileSize <=? size p
          then (Reject (MulterError "LIMIT_FILE_SIZE" "image"),
                set_uploads (delete name (uploads w)) w)
          else
            match rest with
            | [] =>
                (Pass (mkRequest (params req) (body req) (parts req)
                             (Some (mkFile name (originalname p) (size p)))),
                 set_uploads (<[name := size p]> (uploads w)) w)
            | q :: _ =>
                (Reject (MulterError "LIMIT_UNEXPECTED_FILE" (fieldname q)),
                 set_uploads (delete name (uploads w)) w)
            end
    end.

(** [err.status]: none of the errors raised in this program carries one. *)
Definition err_status (e : Error) : option N := None.

(** Express's default error handler, the only one of this application: the
    status of the error when it is a 4xx or 5xx, else 500. *)
Definition default_error_handler (e : Error) : Response :=
  mkResponse
    (match err_status e with
     | Some s => if (400 <=? s) && (s <? 600) then s else 500
     | None => 500
     end)
    (ErrorPage e).

(** [app.post('/api/animal/category/:categoryId', uploadAnimalImage, addAnimal)]:
    the clock is read once by the middleware and once by the controller. *)
Definition post_animal (t_upload t_save : N) (req : Request) : Handler :=
  fun w =>
    match uploadAnimalImage t_upload req w with
    | (Pass req', w') => addAnimal t_save req' w'
    | (Reject e, w') => (default_error_handler e, w')
    end.

(** ** Static files *)

(** File names and URLs are strings of bytes: a name is the UTF-8 text that
    the file system holds, a URL is the request target as it is sent. *)

Fixpoint all_chars (P : ascii -> bool) (s : string) : bool :=
  match s with
  | EmptyString => true
  | String c s' => P c && all_chars P s'
  end.

Fixpoint contains (c : ascii) (s : string) : bool :=
  match s with
  | EmptyString => false
  | String x s' => Ascii.eqb x c || contains c s'
  end.

Definition between (lo hi n : N) : bool := (lo <=? n) && (n <=? hi).

(** The characters that [encodeURIComponent] leaves as they are: letters,
    digits and [- _ . ! ~ * ' ( )]. *)
Definition unescaped (c : ascii) : bool :=
  let n := N_of_ascii c in
  between 65 90 n || between 97 122 n || between 48 57 n
  || existsb (N.eqb n) [45; 95; 46; 33; 126; 42; 39; 40; 41].



(** The bytes that a string of ASCII characters stands for, each [%XX]
    replaced by its byte; [None] on a [%] that two hexadecimal digits do
    not follow. *)
Fixpoint unescape (s : string) : option string :=
  match s with
  | EmptyString => Some EmptyString
  | String c rest =>
      if Ascii.eqb c "%" then
        match rest with
        | String h (String l s') =>
            match ObjectId.hex_val h, ObjectId.hex_val l with
            | Some a, Some b => String (ascii_of_N (16 * a + b)) <$> unescape s'
            | _, _ => None
            end
        | _ => None
        end
      else String c <$> unescape rest
  end.

(** A continuation byte of UTF-8. *)
Definition cont (c : ascii) : bool := between 128 191 (N_of_ascii c).

(** The second byte of a three-byte sequence, by its first byte: no
    overlong form, no surrogate. *)
Definition second3 (b : N) (c : ascii) : bool :=
  if b =? 224 then between 160 191 (N_of_ascii c)
  else if b =? 237 then between 128 159 (N_of_ascii c)
  else cont c.

(** The second byte of a four-byte sequence, by its first byte: no
    overlong form, nothing above U+10FFFF. *)
Definition second4 (b : N) (c : ascii) : bool :=
  if b =? 240 then between 144 191 (N_of_ascii c)
  else if b =? 244 then between 128 143 (N_of_ascii c)
  else cont c.

(** Well-formed UTF-8. *)
Fixpoint utf8_valid (s : string) : bool :=
  match s with
  | EmptyString => true
  | String b s1 =>
      let n := N_of_ascii b in
      if n <? 128 then utf8_valid s1
      else
        match s1 with
        | EmptyString => false
        | String c1 s2 =>
            if between 194 223 n then cont c1 && utf8_valid s2
            else
              match s2 with
              | EmptyString => false
              | String c2 s3 =>
                  if between 224 239 n
                  then second3 n c1 && cont c2 && utf8_valid s3
                  else
                    match s3 with
                    | EmptyString => false
                    | String c3 s4 =>
                        between 240 244 n && second4 n c1 && cont c2 && cont c3
                        && utf8_valid s4
                    end
              end
        end
  end.

(** [decodeURIComponent] on a string of ASCII characters: the escapes are
    replaced by their bytes, which must be well-formed UTF-8; [None] where
    it throws a [URIError]. *)
Definition decodeURIComponent (s : string) : option string :=
  match unescape s with
  | Some d => if utf8_valid d then Some d else None
  | None => None
  end.

(** The characters of a request target that this model of the static
    middleware covers: the unescaped ones, [/ % ?] and [$ & + , : = @].
    A target with a blank, a [#], a [;] or a byte that is not ASCII is
    outside it. *)
Definition modelled_char (c : ascii) : bool :=
  unescaped c
  || existsb (N.eqb (N_of_ascii c)) [47; 37; 63; 36; 38; 43; 44; 58; 61; 64].

(** The path of a request target: what comes before the first [?]. *)
Fixpoint pathname (url : string) : string :=
  match url with
  | EmptyString => EmptyString
  | String c s => if Ascii.eqb c "?" then EmptyString else String c (pathname s)
  end.

Definition lower (c : ascii) : ascii :=
  if between 65 90 (N_of_ascii c) then ascii_of_N (N_of_ascii c + 32) else c.

(** What follows the mount path [m] (in lower case) in [s]; Express
    matches a mount path without regard to case. *)
Fixpoint strip_mount (m s : string) : option string :=
  match m, s with
  | EmptyString, _ => Some s
  | String a m', String b s' =>
      if Ascii.eqb (lower b) a then strip_mount m' s' else None
  | String _ _, EmptyString => None
  end.

(** A dot file: the static middleware ignores it. *)
Definition leading_dot (s : string) : bool :=
  match s with
  | String c _ => Ascii.eqb c "."
  | EmptyString => false
  end.

(** What the static middleware does with a GET request. *)
Inductive StaticAnswer :=
| Sent (size : N)
| NotServed
| Unmodelled.

(** [app.use('/uploads/animals', express.static(uploadDir))], for an
    unconditional GET of the target [url]. The middleware runs when the
    path of the target starts with the mount path; it decodes what follows
    and sends the file of [uploadDir] of this name. A name that does not
    decode, that holds a NUL, that starts with a dot or that is no file of
    the directory is not served: the request falls through. The model
    covers the targets that name an entry of the directory itself: the
    directory, nested paths, dot segments and backslashes are outside
    it. *)
Definition static_get (url : string) (w : World) : StaticAnswer :=
  if negb (all_chars modelled_char url) then Unmodelled else
  match strip_mount "/uploads/animals" (pathname url) with
  | None => NotServed
  | Some EmptyString => Unmodelled
  | Some (String c seg) =>
      if negb (Ascii.eqb c "/") then NotServed
      else if bool_decide (seg = "") || contains "/" seg then Unmodelled
      else
        match decodeURIComponent seg with
        | None => NotServed
        | Some name =>
            if contains "000" name then NotServed
            else if contains "/" name || contains "\" name then Unmodelled
            else if bool_decide (name = ".") || bool_decide (name = "..")
            then Unmodelled
            else if leading_dot name then NotServed
            else
              match uploads w !! name with
              | Some n => Sent n
              | None => NotServed
              end
        end
  end.




(** ** Invariant of the store *)

(** Every document was given its [_id] by the supply of the driver, which
    hands out each identifier once. *)
Definition store_wf (w : World) : Prop :=
  Forall (fun c => c_id c < next_oid w) (categories w) /\
  Forall (fun a => a_id a < next_oid w) (animals w).

(** No animal refers to the category [o]. *)
Definition unreferenced (o : ObjectId.t) (w : World) : Prop :=
  Forall (fun a => a_category a <> Some o) (animals w).

(** ** Auxiliary definitions of the statements *)

(** The three guards of [addAnimal], in the order the controller runs
    them; [None] when the request passes all three. *)
Definition addAnimal_guard (req : Request) : option string :=
  if falsy (params req !! "categoryId") then Some "Missing Category Id"
  else if falsy (body req !! "name") then Some "Missing Image required fields."
  else match file req with
       | None => Some "Missing required fields."
       | Some _ => None
       end.

(** The identifier [id] of a request is the [_id] of no category. *)
Definition names_no_category (id : string) (w : World) : Prop :=
  Forall (fun c => ObjectId.of_string id <> Some (c_id c)) (categories w).

(** The identifier [id] of a request is the [_id] of no animal. *)
Definition names_no_animal (id : string) (w : World) : Prop :=
  Forall (fun a => ObjectId.of_string id <> Some (a_id a)) (animals w).

(** Small worlds and requests for the examples. *)
Definition empty_world : World := mkWorld [] [] 0 ∅ [].

Definition request (ps bs : list (string * string)) (f : option File) : Request :=
  mkRequest (list_to_map ps) (list_to_map bs) [] f.

Definition reptiles : Category := mkCategory 0 (Some "Reptiles") (Some 10) (Some 10).

Definition iguana : Animal :=
  mkAnimal 1 (Some "Iguana") (Some "/uploads/animals/20-iguana.png") (Some 0)
    (Some 20) (Some 20).

Definition reptile_world : World := mkWorld [reptiles] [iguana] 2 ∅ [].

Definition iguana_png : File := mkFile "20-iguana.png" "iguana.png" 1024.

(** A multipart request to create an animal, with one file part. *)
Definition upload_request (ps bs : list (string * string)) (p : Part) : Request :=
  mkRequest (list_to_map ps) (list_to_map bs) [p] None.

Definition huge_png : Part := mkPart "image" "huge.png" (5 * 1024 * 1024 + 1).

Definition small_png : Part := mkPart "image" "iguana.png" 1024.


(** ** Further definitions of the statements *)

(** No two documents of a collection have the same [_id]. *)
Definition unique_ids (w : World) : Prop :=
  NoDup (c_id <$> categories w) /\ NoDup (a_id <$> animals w).

(** The animals that refer to the category [o], as the store lists them. *)
Definition animals_of (o : ObjectId.t) (w : World) : list Animal :=
  List.filter (fun a => bool_decide (a_category a = Some o)) (animals w).

(** The store and the upload directory of two worlds are the same: they
    differ at most by the log of calls. *)
Definition same_data (w w' : World) : Prop :=
  categories w' = categories w /\
  animals w' = animals w /\
  next_oid w' = next_oid w /\
  uploads w' = uploads w.

(** ** Cross-origin policy *)

(** [allowedOrigins], from [process.env.NODE_ENV]. *)
Definition allowedOrigins (node_env : option string) : list string :=
  if bool_decide (node_env = Some "production")
  then ["https://your-production-domain.com"]
  else ["http://localhost:3000"].

(** What the [origin] function of the CORS options hands to its callback:
    [callback(null, true)] or [callback(new Error('Not allowed by CORS'))]. *)
Inductive CorsDecision :=
| Allowed
| NotAllowed (message : string).

(** The [origin] function: [!origin || allowedOrigins.includes(origin)]. *)
Definition cors_origin (node_env origin : option string) : CorsDecision :=
  if falsy origin
     || match origin with
        | Some o => bool_decide (o ∈ allowedOrigins node_env)
        | None => false
        end
  then Allowed
  else NotAllowed "Not allowed by CORS".

(** Identifiers and requests of the examples. *)
Definition id0 : string := "000000000000000000000000".
Definition id1 : string := "000000000000000000000001".
Definition idf : string := "ffffffffffffffffffffffff".

Definition by_categoryId (id : string) : Request :=
  request [("categoryId", id)] [] None.

Definition by_id (id : string) : Request := request [("id", id)] [] None.

Definition named (name : string) : Request := request [] [("name", name)] None.

Definition rename_to (id name : string) : Request :=
  request [("categoryId", id)] [("name", name)] None.

(** The test of a lookup by identifier, for a collection whose documents
    have the identifier [key]. *)
Definition keyed {A : Type} (key : A -> N) (o : option N) (x : A) : bool :=
  bool_decide (Some (key x) = o).

(** The first category of the store that has the name [name]. *)
Definition category_named (name : option string) (w : World) : option Category :=
  List.find (fun c => bool_decide (c_name c = name)) (categories w).

(** How [populate] resolves the reference of [a] into the field of [pa]:
    to a category of the store that has the referenced identifier, or to
    null when [a] refers to no category of the store. *)
Definition resolved (w : World) (a : Animal) (pa : PopulatedAnimal) : Prop :=
  match pa_category pa with
  | Some c => c ∈ categories w /\ a_category a = Some (c_id c)
  | None => forall c, c ∈ categories w -> a_category a <> Some (c_id c)
  end.

(** An animal as a listing shows it: its own fields, with the category
    [c] in the place of its reference. *)
Definition shown (a : Animal) (c : option Category) : PopulatedAnimal :=
  mkPopulated (a_id a) (a_name a) (a_image a) c (a_createdAt a) (a_updatedAt a).

(** [pa] is the animal [a] as a listing shows it, with its reference
    resolved in the store. *)
Definition listed_as (w : World) (a : Animal) (pa : PopulatedAnimal) : Prop :=
  pa = shown a (pa_category pa) /\ resolved w a pa.

(** A store with one category and no animal. *)
Definition lonely_world : World := mkWorld [reptiles] [] 1 ∅ [].

Definition by_categoryName (name : string) : Request :=
  request [("categoryName", name)] [] None.

(** A complete request to create an animal, as the upload middleware
    hands it to the controller. *)
Definition new_animal (id name : string) (f : File) : Request :=
  request [("categoryId", id)] [("name", name)] (Some f).
(** * Properties *)

(** ** ObjectIds: a printed identifier reads back *)

Module ObjectIdFacts.
Import ObjectId.

Lemma hex_val_digit d : d < 16 -> hex_val (hex_digit d) = Some d.
Proof.
  intros H.
  rewrite <- (N2Nat.id d) in *.
  assert (Hn : (N.to_nat d < 16)%nat) by lia.
  clear H. generalize dependent (N.to_nat d). intros n Hn.
  do 16 (destruct n as [|n]; [reflexivity|]). lia.
Qed.

Lemma length_hex_of k n : String.length (hex_of k n) = k.
Proof. induction k as [|k IH]; simpl; [reflexivity | now rewrite IH]. Qed.

Lemma all_hex_hex_of k n : all_hex (hex_of k n) = true.
Proof.
  induction k as [|k IH]; [reflexivity|].
  cbn [hex_of all_hex]. rewrite IH. unfold is_hex.
  rewrite hex_val_digit; [reflexivity|].
  apply N.mod_upper_bound. lia.
Qed.

Lemma parse_hex_hex_of k n acc :
  parse_hex acc (hex_of k n)
  = Some (acc * 16 ^ N.of_nat k + n mod 16 ^ N.of_nat k).
Proof.
  revert acc. induction k as [|k IH]; intros acc.
  - cbn [hex_of parse_hex]. f_equal. change (16 ^ N.of_nat 0) with 1.
    rewrite N.mod_1_r. lia.
  - cbn [hex_of parse_hex].
    rewrite hex_val_digit by (apply N.mod_upper_bound; lia).
    rewrite IH. f_equal.
    rewrite Nat2N.inj_succ, N.pow_succ_r'.
    rewrite (N.mul_comm 16 (16 ^ N.of_nat k)).
    rewrite (N.Div0.mod_mul_r n (16 ^ N.of_nat k) 16). lia.
Qed.

Lemma isValid_to_string o : isValid (to_string o) = true.
Proof.
  unfold isValid, to_string.
  rewrite length_hex_of, all_hex_hex_of. reflexivity.
Qed.

Lemma of_string_to_string o : in_range o -> of_string (to_string o) = Some o.
Proof.
  unfold in_range, of_string. intros H.
  rewrite isValid_to_string. unfold to_string.
  rewrite parse_hex_hex_of. f_equal.
  change (16 ^ N.of_nat 24) with (2 ^ 96).
  rewrite N.mod_small by exact H. lia.
Qed.

Lemma to_string_nonempty o : to_string o <> "".
Proof.
  intros E. apply (f_equal String.length) in E.
  unfold to_string in E. rewrite length_hex_of in E. discriminate.
Qed.

Lemma of_string_invalid s : isValid s = false -> of_string s = None.
Proof. unfold of_string. now intros ->. Qed.

Example isValid_abc : isValid "abc" = false.
Proof. reflexivity. Qed.

Example isValid_non_hex : isValid "00000000000000000000000g" = false.
Proof. reflexivity. Qed.

Example of_string_either_case :
  of_string "0000000000000000000000fF" = Some 255 /\
  to_string 255 = "0000000000000000000000ff".
Proof. split; reflexivity. Qed.

End ObjectIdFacts.

(** ** Unfolding a controller *)

Ltac unfold_monad :=
  unfold log in *;
  unfold try_catch, respond, send, bind, ret, throw, gets, modify in *.

Ltac unfold_models :=
  unfold Category_find, Category_findById, Category_findOne,
    Category_findByIdAndUpdate, Category_findByIdAndDelete,
    new_Category, Category_save, Animal_find_populate,
    Animal_findByIdAndDelete, new_Animal, Animal_save,
    new_ObjectId, castObjectId in *.

Ltac run :=
  unfold_models; unfold_monad;
  unfold set_categories, set_animals, set_next_oid, set_uploads, record in *;
  cbn [categories animals next_oid uploads calls fst snd status json
       c_id c_name c_createdAt c_updatedAt
       a_id a_name a_image a_category a_createdAt a_updatedAt
       params body parts file] in *.

(** ** Listing the categories *)

(** C3: a request for the list of categories is answered 404 when the store
    holds no category, and 200 with all the categories of the store when
    it holds at least one. *)
Theorem getCategories_empty_404_else_all req w :
  (categories w = [] ->
   fst (getCategories req w) = mkResponse 404 (JMessage "No categories found")) /\
  (categories w <> [] ->
   fst (getCategories req w) = mkResponse 200 (JCategories (categories w))).
Proof.
  unfold getCategories. run.
  split; intros H.
  - rewrite H. reflexivity.
  - destruct (categories w); [congruence | reflexivity].
Qed.

Lemma getCategories_empty_404_else_all_witness :
  fst (getCategories (request [] [] None) empty_world)
  = mkResponse 404 (JMessage "No categories found") /\
  fst (getCategories (request [] [] None) reptile_world)
  = mkResponse 200 (JCategories [reptiles]).
Proof.
  split.
  - apply (proj1 (getCategories_empty_404_else_all _ empty_world)). reflexivity.
  - apply (proj2 (getCategories_empty_404_else_all _ reptile_world)). discriminate.
Defined.

(** ** Creating an animal: the required fields *)

Lemma falsy_nonempty c s : falsy (Some (String c s)) = false.
Proof. apply bool_decide_eq_false. discriminate. Qed.

(** The path of an uploaded image is never an empty string. *)
Lemma falsy_image (name : string) :
  falsy (Some ("/uploads/animals/" ++ name)) = false.
Proof. unfold falsy. apply bool_decide_eq_false. discriminate. Qed.

(** A request that fails a guard is answered 400 with the text of that
    guard, and the world is left as it was. *)
Lemma addAnimal_rejected now req w msg :
  addAnimal_guard req = Some msg ->
  addAnimal now req w = (mkResponse 400 (JMessage msg), w).
Proof.
  unfold addAnimal_guard, addAnimal. run.
  destruct (falsy (params req !! "categoryId")); [congruence|].
  destruct (falsy (body req !! "name")); [congruence|].
  destruct (file req); [discriminate | cbn; congruence].
Qed.

(** C7: a request to create an animal that lacks the category identifier,
    the name or the uploaded image is answered 400, and the collection of
    animals is the one of before. *)
Theorem addAnimal_missing_field_400 now req w :
  falsy (params req !! "categoryId") = true \/
  falsy (body req !! "name") = true \/
  file req = None ->
  status (fst (addAnimal now req w)) = 400 /\
  animals (snd (addAnimal now req w)) = animals w.
Proof.
  intros H.
  assert (exists msg, addAnimal_guard req = Some msg) as [msg Hmsg].
  { unfold addAnimal_guard.
    destruct (falsy (params req !! "categoryId")); [eauto|].
    destruct (falsy (body req !! "name")); [eauto|].
    destruct (file req); [|eauto].
    destruct H as [H | [H | H]]; discriminate. }
  rewrite (addAnimal_rejected now req w msg Hmsg). split; reflexivity.
Qed.

Lemma addAnimal_missing_field_400_witness :
  (status (fst (addAnimal 30 (request [] [("name", "Iguana")] (Some iguana_png))
                          reptile_world)) = 400 /\
   animals (snd (addAnimal 30 (request [] [("name", "Iguana")] (Some iguana_png))
                           reptile_world)) = [iguana]) /\
  (status (fst (addAnimal 30
                  (request [("categoryId", "000000000000000000000000")] []
                           (Some iguana_png))
                  reptile_world)) = 400 /\
   animals (snd (addAnimal 30
                   (request [("categoryId", "000000000000000000000000")] []
                            (Some iguana_png))
                   reptile_world)) = [iguana]) /\
  (status (fst (addAnimal 30
                  (request [("categoryId", "000000000000000000000000")]
                           [("name", "Iguana")] None)
                  reptile_world)) = 400 /\
   animals (snd (addAnimal 30
                   (request [("categoryId", "000000000000000000000000")]
                            [("name", "Iguana")] None)
                   reptile_world)) = [iguana]).
Proof.
  split; [|split].
  - apply (addAnimal_missing_field_400 30
             (request [] [("name", "Iguana")] (Some iguana_png)) reptile_world).
    left. reflexivity.
  - apply (addAnimal_missing_field_400 30
             (request [("categoryId", "000000000000000000000000")] []
                      (Some iguana_png))
             reptile_world).
    right. left. reflexivity.
  - apply (addAnimal_missing_field_400 30
             (request [("categoryId", "000000000000000000000000")]
                      [("name", "Iguana")] None)
             reptile_world).
    right. right. reflexivity.
Defined.

(** C10: the three rejections of [addAnimal] for a missing field are 400
    responses whose texts are: 'Missing Category Id' when the category
    identifier is missing; 'Missing Image required fields.' when the name
    is missing, although the text speaks of the image; 'Missing required
    fields.' when the image is missing. *)
Theorem addAnimal_missing_field_messages now req w :
  (falsy (params req !! "categoryId") = true ->
   fst (addAnimal now req w) = mkResponse 400 (JMessage "Missing Category Id")) /\
  (falsy (params req !! "categoryId") = false ->
   falsy (body req !! "name") = true ->
   fst (addAnimal now req w)
   = mkResponse 400 (JMessage "Missing Image required fields.")) /\
  (falsy (params req !! "categoryId") = false ->
   falsy (body req !! "name") = false ->
   file req = None ->
   fst (addAnimal now req w) = mkResponse 400 (JMessage "Missing required fields.")).
Proof.
  repeat split; intros;
    erewrite addAnimal_rejected; try reflexivity;
    unfold addAnimal_guard;
    repeat match goal with H : _ = _ |- _ => rewrite H end; reflexivity.
Qed.

Lemma addAnimal_missing_field_messages_witness :
  fst (addAnimal 30 (request [] [("name", "Iguana")] (Some iguana_png))
                 reptile_world)
  = mkResponse 400 (JMessage "Missing Category Id") /\
  fst (addAnimal 30
         (request [("categoryId", "000000000000000000000000")] []
                  (Some iguana_png))
         reptile_world)
  = mkResponse 400 (JMessage "Missing Image required fields.") /\
  fst (addAnimal 30
         (request [("categoryId", "000000000000000000000000")]
                  [("name", "Iguana")] None)
         reptile_world)
  = mkResponse 400 (JMessage "Missing required fields.").
Proof.
  split; [|split].
  - apply (proj1 (addAnimal_missing_field_messages 30 _ reptile_world)).
    reflexivity.
  - apply (proj1 (proj2 (addAnimal_missing_field_messages 30 _ reptile_world)));
      reflexivity.
  - apply (proj2 (proj2 (addAnimal_missing_field_messages 30 _ reptile_world)));
      reflexivity.
Defined.

(** ** Facts on the collections *)

Lemma find_none_Forall {A} (p : A -> bool) (l : list A) :
  Forall (fun x => p x = false) l -> List.find p l = None.
Proof. induction 1 as [|x l Hx _ IH]; cbn; [reflexivity | now rewrite Hx]. Qed.

Lemma remove_first_none {A} (p : A -> bool) (l : list A) :
  Forall (fun x => p x = false) l -> remove_first p l = l.
Proof.
  induction 1 as [|x l Hx _ IH]; cbn; [reflexivity | rewrite Hx; now f_equal].
Qed.

Lemma existsb_none {A} (p : A -> bool) (l : list A) :
  Forall (fun x => p x = false) l -> existsb p l = false.
Proof. induction 1 as [|x l Hx _ IH]; cbn; [reflexivity | now rewrite Hx]. Qed.

Lemma names_no_category_find id w :
  names_no_category id w ->
  List.find (has_id (ObjectId.of_string id)) (categories w) = None.
Proof.
  intros H. apply find_none_Forall. eapply Forall_impl; [exact H|].
  intros c Hc. apply bool_decide_eq_false. congruence.
Qed.

(** A well-formed identifier is not an empty string. *)
Lemma isValid_truthy id : ObjectId.isValid id = true -> falsy (Some id) = false.
Proof.
  intros H. apply bool_decide_eq_false. intros ->. discriminate.
Qed.

Lemma isValid_of_string id :
  ObjectId.isValid id = true -> exists o, ObjectId.of_string id = Some o.
Proof.
  unfold ObjectId.of_string, ObjectId.isValid. intros H. rewrite H.
  apply andb_true_iff in H as [_ H].
  generalize 0. induction id as [|c s IH]; intros acc; cbn in *; [eauto|].
  apply andb_true_iff in H as [Hc Hs]. unfold ObjectId.is_hex in Hc.
  destruct (ObjectId.hex_val c); [auto | discriminate].
Qed.

(** ** Deleting a category *)

(** C8: whatever the request to delete a category, every animal of the
    store is after it what it was before, those that refer to the deleted
    category included. *)
Theorem deleteCategory_keeps_animals req w :
  animals (snd (deleteCategory req w)) = animals w.
Proof.
  unfold deleteCategory.
  destruct (ObjectId_isValid (params req !! "id")) eqn:Hv; cbn [negb].
  - destruct (params req !! "id") as [id|]; [|discriminate].
    destruct (isValid_of_string id Hv) as [o Ho]. run. rewrite Ho. run.
    destruct (List.find (has_id (Some o)) (categories w)); reflexivity.
  - reflexivity.
Qed.

(** The animal that refers to a deleted category stays, with its reference. *)
Example deleteCategory_orphans :
  let w := snd (deleteCategory
                  (request [("id", "000000000000000000000000")] [] None)
                  reptile_world) in
  categories w = [] /\ animals w = [iguana] /\ a_category iguana = Some 0.
Proof. vm_compute. auto. Qed.

(** ** Creating an animal under a category that does not exist *)

(** C4, as stated, fails: the controller checks the name and the image
    before it looks the category up, so that a request with a well-formed
    identifier of no category and no name is answered 400. *)
Lemma addAnimal_unknown_category_not_always_404 :
  ~ (forall now req w id,
        params req !! "categoryId" = Some id ->
        ObjectId.isValid id = true ->
        names_no_category id w ->
        status (fst (addAnimal now req w)) = 404 /\
        animals (snd (addAnimal now req w)) = animals w).
Proof.
  intros H.
  specialize (H 30 (request [("categoryId", "ffffffffffffffffffffffff")] []
                            (Some iguana_png))
                reptile_world "ffffffffffffffffffffffff").
  destruct H as [H _].
  - reflexivity.
  - reflexivity.
  - repeat constructor. discriminate.
  - vm_compute in H. discriminate.
Qed.

(** The lookup of the category is the fourth step of [addAnimal]: a
    request that passes the three guards and names no category is answered
    404, with one call on the model and nothing else changed. *)
Lemma addAnimal_category_not_found now req w id :
  params req !! "categoryId" = Some id ->
  ObjectId.isValid id = true ->
  names_no_category id w ->
  falsy (body req !! "name") = false ->
  file req <> None ->
  addAnimal now req w
  = (mkResponse 404 (JMessage "Category not found"),
     record (Category_findById_call (Some id)) w).
Proof.
  intros Hid Hv Hno Hname Hfile.
  pose proof (isValid_truthy id Hv) as Ht.
  pose proof (names_no_category_find id w Hno) as Hfind.
  destruct (isValid_of_string id Hv) as [o Ho].
  unfold addAnimal. rewrite Hid, Ht, Hname. run. rewrite Ho.
  destruct (file req) as [f|]; [|congruence].
  rewrite falsy_image. run.
  rewrite Ho in Hfind. rewrite Hfind. reflexivity.
Qed.

(** C4, amended: a request to create an animal whose category identifier
    is well formed and is the identifier of no category persists no
    animal; when it carries a name and an uploaded image, it is answered
    404. *)
Theorem addAnimal_unknown_category_404 now req w id :
  params req !! "categoryId" = Some id ->
  ObjectId.isValid id = true ->
  names_no_category id w ->
  animals (snd (addAnimal now req w)) = animals w /\
  (falsy (body req !! "name") = false ->
   file req <> None ->
   fst (addAnimal now req w) = mkResponse 404 (JMessage "Category not found")).
Proof.
  intros Hid Hv Hno.
  destruct (addAnimal_guard req) as [msg|] eqn:Hguard.
  - rewrite (addAnimal_rejected now req w msg Hguard). split; [reflexivity|].
    intros Hname Hfile. exfalso. revert Hguard. unfold addAnimal_guard.
    rewrite Hid, (isValid_truthy id Hv), Hname.
    destruct (file req); [discriminate | congruence].
  - assert (Hname : falsy (body req !! "name") = false).
    { revert Hguard. unfold addAnimal_guard.
      destruct (falsy (params req !! "categoryId")); [discriminate|].
      destruct (falsy (body req !! "name")); [discriminate | reflexivity]. }
    assert (Hfile : file req <> None).
    { revert Hguard. unfold addAnimal_guard.
      destruct (falsy (params req !! "categoryId")); [discriminate|].
      destruct (falsy (body req !! "name")); [discriminate|].
      destruct (file req); [discriminate | discriminate]. }
    rewrite (addAnimal_category_not_found now req w id Hid Hv Hno Hname Hfile).
    split; reflexivity.
Qed.

Lemma addAnimal_unknown_category_404_witness :
  animals (snd (addAnimal 30
                  (request [("categoryId", "ffffffffffffffffffffffff")]
                           [("name", "Iguana")] (Some iguana_png))
                  reptile_world)) = [iguana] /\
  fst (addAnimal 30
         (request [("categoryId", "ffffffffffffffffffffffff")]
                  [("name", "Iguana")] (Some iguana_png))
         reptile_world) = mkResponse 404 (JMessage "Category not found").
Proof.
  assert (Hno : names_no_category "ffffffffffffffffffffffff" reptile_world).
  { repeat constructor. discriminate. }
  pose proof (addAnimal_unknown_category_404 30
                (request [("categoryId", "ffffffffffffffffffffffff")]
                         [("name", "Iguana")] (Some iguana_png))
                reptile_world "ffffffffffffffffffffffff"
                eq_refl eq_refl Hno) as [Ha Hr].
  split; [exact Ha | apply Hr; [reflexivity | discriminate]].
Defined.

(** ** Identifiers of the request path *)

(** X29: the three controllers of categories that take an identifier check
    it first: a malformed one is answered 400 and no call is issued on a
    model. *)
Lemma category_controllers_validate now req w :
  (ObjectId_isValid (params req !! "categoryId") = false ->
   getCategoryById req w
   = (mkResponse 400 (JMessage "Invalid category ID format"), w) /\
   updateCategory now req w
   = (mkResponse 400 (JMessage "Invalid category ID format"), w)) /\
  (ObjectId_isValid (params req !! "id") = false ->
   deleteCategory req w
   = (mkResponse 400 (JMessage "Invalid category ID format"), w)).
Proof.
  unfold getCategoryById, updateCategory, deleteCategory.
  split; intros ->; auto.
Qed.

(** C1 fails on the three controllers of animals that take an identifier:
    they hand it to the model unchecked, Mongoose fails to cast a malformed
    one, and the [catch] block answers 500. For a malformed identifier
    [id]: [deleteAnimal] issues [Animal.findByIdAndDelete(id)],
    [getAnimalsByCategoryId] issues [Animal.find({ category: id })], and
    [addAnimal], on a request with a name and an image, issues
    [Category.findById(id)]; each answers 500. *)
Theorem unchecked_identifier_reaches_model now req w id :
  ObjectId.isValid id = false ->
  (params req !! "id" = Some id ->
   deleteAnimal req w
   = (mkResponse 500
        (JMessageError "Error deleting animal" (CastError "_id" id)),
      record (Animal_findByIdAndDelete_call (Some id)) w)) /\
  (params req !! "categoryId" = Some id ->
   getAnimalsByCategoryId req w
   = (mkResponse 500
        (JMessageError "Error fetching animals by category ID"
           (CastError "category" id)),
      record (Animal_find_call (Some (IdString (Some id)))) w)) /\
  (params req !! "categoryId" = Some id ->
   id <> "" ->
   falsy (body req !! "name") = false ->
   file req <> None ->
   addAnimal now req w
   = (mkResponse 500
        (JMessageErrorMessage "Internal server error while adding animal."
           (CastError "_id" id)),
      record (Category_findById_call (Some id)) w)).
Proof.
  intros Hv. pose proof (ObjectIdFacts.of_string_invalid id Hv) as Ho.
  split; [|split].
  - intros Hid. unfold deleteAnimal. rewrite Hid. run. rewrite Ho. reflexivity.
  - intros Hid. unfold getAnimalsByCategoryId. rewrite Hid. run. rewrite Ho.
    reflexivity.
  - intros Hid Hne Hname Hfile. unfold addAnimal. rewrite Hid, Hname.
    replace (falsy (Some id)) with false
      by (symmetry; apply bool_decide_eq_false; exact Hne).
    destruct (file req) as [f|]; [|congruence].
    rewrite falsy_image. run. rewrite Ho. reflexivity.
Qed.

Lemma unchecked_identifier_reaches_model_witness :
  deleteAnimal (request [("id", "abc")] [] None) reptile_world
  = (mkResponse 500
       (JMessageError "Error deleting animal" (CastError "_id" "abc")),
     record (Animal_findByIdAndDelete_call (Some "abc")) reptile_world) /\
  getAnimalsByCategoryId (request [("categoryId", "abc")] [] None) reptile_world
  = (mkResponse 500
       (JMessageError "Error fetching animals by category ID"
          (CastError "category" "abc")),
     record (Animal_find_call (Some (IdString (Some "abc")))) reptile_world) /\
  addAnimal 30
    (request [("categoryId", "abc")] [("name", "Iguana")] (Some iguana_png))
    reptile_world
  = (mkResponse 500
       (JMessageErrorMessage "Internal server error while adding animal."
          (CastError "_id" "abc")),
     record (Category_findById_call (Some "abc")) reptile_world).
Proof.
  split; [|split].
  - apply (proj1 (unchecked_identifier_reaches_model
                    30 (request [("id", "abc")] [] None) reptile_world "abc"
                    eq_refl)).
    reflexivity.
  - apply (proj1 (proj2 (unchecked_identifier_reaches_model
                           30 (request [("categoryId", "abc")] [] None)
                           reptile_world "abc" eq_refl))).
    reflexivity.
  - apply (proj2 (proj2 (unchecked_identifier_reaches_model
                           30 (request [("categoryId", "abc")]
                                       [("name", "Iguana")] (Some iguana_png))
                           reptile_world "abc" eq_refl)));
      [reflexivity | discriminate | reflexivity | discriminate].
Defined.

(** ** Deleting an animal *)

(** C6, as stated, fails: a request to delete an animal is not always
    answered 200, since a malformed identifier is answered 500. *)
Lemma deleteAnimal_not_always_200 :
  ~ (forall req w, status (fst (deleteAnimal req w)) = 200).
Proof.
  intros H.
  specialize (H (request [("id", "abc")] [] None) reptile_world).
  vm_compute in H. discriminate.
Qed.

(** C6, amended: a request to delete an animal whose identifier is well
    formed is answered 200 with a confirmation, whether an animal has this
    identifier or not: the controller removes the animal of this
    identifier if there is one, and changes nothing if there is none. *)
Theorem deleteAnimal_no_existence_check req w id :
  params req !! "id" = Some id ->
  ObjectId.isValid id = true ->
  fst (deleteAnimal req w)
  = mkResponse 200 (JMessage "Animal deleted successfully") /\
  animals (snd (deleteAnimal req w))
  = remove_first (animal_has_id (ObjectId.of_string id)) (animals w) /\
  (names_no_animal id w -> animals (snd (deleteAnimal req w)) = animals w).
Proof.
  intros Hid Hv. destruct (isValid_of_string id Hv) as [o Ho].
  unfold deleteAnimal. rewrite Hid. run. rewrite Ho. run.
  split; [reflexivity | split; [reflexivity|]].
  intros Hno. apply remove_first_none.
  eapply Forall_impl; [exact Hno|].
  intros a Ha. apply bool_decide_eq_false. congruence.
Qed.

Lemma deleteAnimal_no_existence_check_witness :
  (fst (deleteAnimal (request [("id", "000000000000000000000001")] [] None)
                     reptile_world)
   = mkResponse 200 (JMessage "Animal deleted successfully") /\
   animals (snd (deleteAnimal
                   (request [("id", "000000000000000000000001")] [] None)
                   reptile_world)) = []) /\
  (fst (deleteAnimal (request [("id", "00000000000000000000000a")] [] None)
                     reptile_world)
   = mkResponse 200 (JMessage "Animal deleted successfully") /\
   animals (snd (deleteAnimal
                   (request [("id", "00000000000000000000000a")] [] None)
                   reptile_world)) = [iguana]).
Proof.
  split.
  - destruct (deleteAnimal_no_existence_check
                (request [("id", "000000000000000000000001")] [] None)
                reptile_world "000000000000000000000001" eq_refl eq_refl)
      as (Hr & Ha & _).
    split; [exact Hr | rewrite Ha; reflexivity].
  - destruct (deleteAnimal_no_existence_check
                (request [("id", "00000000000000000000000a")] [] None)
                reptile_world "00000000000000000000000a" eq_refl eq_refl)
      as (Hr & _ & Ha).
    split; [exact Hr | apply Ha].
    repeat constructor. discriminate.
Defined.

(** ** The upload middleware *)

(** Cases on every test of the goal, for the properties that hold along
    each path of a controller. *)
Ltac split_paths :=
  repeat (run;
          match goal with
          | |- context [match ?x with _ => _ end] =>
              lazymatch x with
              | context [match _ with _ => _ end] => fail
              | _ => destruct x eqn:?
              end
          end);
  run.


(** ** File names and request targets *)























(** C2, as stated, fails: the rejection of an oversized upload is not
    answered 400. *)
Lemma oversized_upload_not_400 :
  ~ (forall t_upload t_save req w p,
        p ∈ parts req ->
        fileSize < size p ->
        status (fst (post_animal t_upload t_save req w)) = 400).
Proof.
  intros H.
  specialize (H 20 30
                (upload_request [("categoryId", "000000000000000000000000")]
                                [("name", "Iguana")] huge_png)
                reptile_world huge_png).
  assert (Hs : fileSize < size huge_png) by (vm_compute; reflexivity).
  assert (Hp : huge_png ∈ [huge_png]) by constructor.
  specialize (H Hp Hs). vm_compute in H. discriminate.
Qed.

(** C2, amended: a request to create an animal with an uploaded file of
    more than 5 MiB is failed by the upload middleware, so that the
    controller does not run: no call is issued on a model, the collections
    are unchanged, and the error goes to the default error handler, which
    answers 500. When the file is the only one and is the field [image],
    the error is Multer's LIMIT_FILE_SIZE. *)
Theorem oversized_upload_rejected_before_controller t_upload t_save req w p :
  p ∈ parts req ->
  fileSize < size p ->
  exists e w',
    uploadAnimalImage t_upload req w = (Reject e, w') /\
    post_animal t_upload t_save req w = (mkResponse 500 (ErrorPage e), w') /\
    categories w' = categories w /\
    animals w' = animals w /\
    calls w' = calls w /\
    (parts req = [p] -> fieldname p = "image" ->
     e = MulterError "LIMIT_FILE_SIZE" "image").
Proof.
  intros Hp Hsize. unfold post_animal, uploadAnimalImage.
  destruct (parts req) as [|p0 rest] eqn:Hparts.
  - inversion Hp.
  - destruct (bool_decide (fieldname p0 = "image")) eqn:Hfield; cbn [negb].
    + destruct (fileSize <=? size p0) eqn:Hlim.
      * do 2 eexists. repeat split; reflexivity.
      * destruct rest as [|q rest].
        -- apply list_elem_of_singleton in Hp. subst p0.
           apply N.leb_gt in Hlim. lia.
        -- do 2 eexists. repeat split; try reflexivity. discriminate.
    + do 2 eexists. repeat split; try reflexivity.
      intros E He. inversion E; subst.
      apply bool_decide_eq_false in Hfield. contradiction.
Qed.

Lemma oversized_upload_rejected_before_controller_witness :
  exists e w',
    uploadAnimalImage 20
      (upload_request [("categoryId", "000000000000000000000000")]
                      [("name", "Iguana")] huge_png)
      reptile_world = (Reject e, w') /\
    post_animal 20 30
      (upload_request [("categoryId", "000000000000000000000000")]
                      [("name", "Iguana")] huge_png)
      reptile_world = (mkResponse 500 (ErrorPage e), w') /\
    categories w' = [reptiles] /\
    animals w' = [iguana] /\
    calls w' = [] /\
    e = MulterError "LIMIT_FILE_SIZE" "image".
Proof.
  destruct (oversized_upload_rejected_before_controller 20 30
              (upload_request [("categoryId", "000000000000000000000000")]
                              [("name", "Iguana")] huge_png)
              reptile_world huge_png)
    as (e & w' & H1 & H2 & H3 & H4 & H5 & H6).
  - constructor.
  - vm_compute. reflexivity.
  - exists e, w'. repeat split; try assumption. apply H6; reflexivity.
Defined.



(** A file name with a question mark is not sent for its literal path,
    whose query the static middleware cuts off; it is sent for the encoded
    one. A file of exactly the limit is refused. *)
Example static_get_question_mark :
  let w := snd (post_animal 20 30
                  (upload_request [("categoryId", "ffffffffffffffffffffffff")]
                                  [("name", "Iguana")]
                                  (mkPart "image" "a?b.png" 1024))
                  reptile_world) in
  static_get "/uploads/animals/20-a?b.png" w = NotServed /\
  static_get "/uploads/animals/20-a%3Fb.png" w = Sent 1024.
Proof. vm_compute. split; reflexivity. Qed.

Example upload_of_exactly_the_limit :
  post_animal 20 30
    (upload_request [("categoryId", "000000000000000000000000")]
                    [("name", "Iguana")]
                    (mkPart "image" "iguana.png" (5 * 1024 * 1024)))
    reptile_world
  = (mkResponse 500 (ErrorPage (MulterError "LIMIT_FILE_SIZE" "image")),
     reptile_world).
Proof. vm_compute. reflexivity. Qed.

(** ** The invariant of the store *)

Lemma Forall_update_first {A} (P : A -> Prop) p f (l : list A) :
  (forall x, P x -> P (f x)) -> Forall P l -> Forall P (update_first p f l).
Proof.
  intros Hf. induction 1 as [|x l Hx Hl IH]; cbn; [constructor|].
  destruct (p x); constructor; auto.
Qed.

Lemma Forall_remove_first {A} (P : A -> Prop) p (l : list A) :
  Forall P l -> Forall P (remove_first p l).
Proof.
  induction 1 as [|x l Hx Hl IH]; cbn; [constructor|].
  destruct (p x); [assumption | constructor; assumption].
Qed.

Lemma Forall_lt_succ {A} (f : A -> N) n (l : list A) :
  Forall (fun x => f x < n) l -> Forall (fun x => f x < n + 1) l.
Proof. intros H. eapply Forall_impl; [exact H|]. cbn. intros; lia. Qed.

Lemma mod_lt_succ n : n mod 2 ^ 96 < n + 1.
Proof. pose proof (N.Div0.mod_le n (2 ^ 96)). lia. Qed.

Ltac solve_wf :=
  match goal with
  | H : store_wf _ |- store_wf _ =>
      destruct H as [? ?]; split; cbn [categories animals next_oid a_id c_id];
      repeat first
        [ assumption
        | exact I
        | apply Forall_app; split
        | apply Forall_cons; split
        | apply Forall_nil
        | apply mod_lt_succ
        | apply Forall_remove_first
        | apply Forall_update_first; [intros ? ?; assumption|]
        | apply Forall_lt_succ
        | apply Forall_lt_succ; apply Forall_lt_succ ]
  end.

(** X26: every controller, and the route that creates an animal, keeps the
    store well formed: the identifiers of its documents stay below the
    supply of the driver. *)
Lemma store_wf_preserved now t_upload req w :
  store_wf w ->
  store_wf (snd (getCategories req w)) /\
  store_wf (snd (getCategoryById req w)) /\
  store_wf (snd (addCategory now req w)) /\
  store_wf (snd (updateCategory now req w)) /\
  store_wf (snd (deleteCategory req w)) /\
  store_wf (snd (getAnimals req w)) /\
  store_wf (snd (addAnimal now req w)) /\
  store_wf (snd (deleteAnimal req w)) /\
  store_wf (snd (getAnimalsByCategoryId req w)) /\
  store_wf (snd (getAnimalsByCategoryName req w)) /\
  store_wf (snd (post_animal t_upload now req w)).
Proof.
  intros Hwf.
  assert (Hadd : forall r v, store_wf v -> store_wf (snd (addAnimal now r v))).
  { intros r v Hv. unfold addAnimal. split_paths; solve_wf. }
  repeat match goal with |- store_wf _ /\ _ => split end.
  all: try (apply Hadd; exact Hwf).
  all: try (unfold post_animal, uploadAnimalImage;
            destruct (parts req) as [|p rest]; [apply Hadd, Hwf|];
            destruct (negb _); [exact Hwf|];
            destruct (fileSize <=? size p); [solve_wf|];
            destruct rest; [apply Hadd|]; solve_wf).
  all: unfold getCategories, getCategoryById, addCategory, updateCategory,
         deleteCategory, getAnimals, deleteAnimal, getAnimalsByCategoryId,
         getAnimalsByCategoryName;
       split_paths; solve_wf.
Qed.

(** ** Round trip: category, animal, listing *)

Lemma lookup_request_param k v bs f :
  params (request [(k, v)] bs f) !! k = Some v.
Proof. unfold request. cbn. apply lookup_insert_eq. Qed.

Lemma lookup_request_body ps k v f :
  body (request ps [(k, v)] f) !! k = Some v.
Proof. unfold request. cbn. apply lookup_insert_eq. Qed.

Lemma find_app_fresh {A} (p : A -> bool) (l : list A) x :
  Forall (fun y => p y = false) l -> p x = true ->
  List.find p (l ++ [x]) = Some x.
Proof.
  intros Hl Hx. induction Hl as [|y l Hy _ IH]; cbn.
  - now rewrite Hx.
  - now rewrite Hy.
Qed.

Lemma filter_app_fresh {A} (p : A -> bool) (l : list A) x :
  Forall (fun y => p y = false) l -> p x = true ->
  List.filter p (l ++ [x]) = [x].
Proof.
  intros Hl Hx. induction Hl as [|y l Hy _ IH]; cbn.
  - now rewrite Hx.
  - now rewrite Hy.
Qed.

(** C5: from a well-formed store in which no animal refers to the
    identifier that the new category receives, creating the category
    "Reptiles", then the animal "Iguana" under the identifier of this
    category with an image, then listing the animals of this identifier,
    yields exactly one animal, named "Iguana", whose category is the
    whole document of the category that was created. *)
Theorem create_then_list_round_trip t1 t2 f w :
  store_wf w ->
  next_oid w + 1 < 2 ^ 96 ->
  unreferenced (next_oid w) w ->
  exists category w1 animal w2 listed,
    addCategory t1 (request [] [("name", "Reptiles")] None) w
    = (mkResponse 201 (JCategory category), w1) /\
    c_name category = Some "Reptiles" /\
    addAnimal t2
      (request [("categoryId", ObjectId.to_string (c_id category))]
               [("name", "Iguana")] (Some f))
      w1
    = (mkResponse 201 (JAnimalAdded "Animal added successfully." animal), w2) /\
    fst (getAnimalsByCategoryId
           (request [("categoryId", ObjectId.to_string (c_id category))] [] None)
           w2)
    = mkResponse 200 (JAnimals [listed]) /\
    pa_id listed = a_id animal /\
    pa_name listed = Some "Iguana" /\
    pa_category listed = Some category.
Proof.
  intros [Hcs Has] Hsupply Hunref.
  pose (category := mkCategory (next_oid w) (Some "Reptiles") (Some t1) (Some t1)).
  pose (animal := mkAnimal (next_oid w + 1) (Some "Iguana")
                           (Some ("/uploads/animals/" ++ filename f))
                           (Some (next_oid w)) (Some t2) (Some t2)).
  assert (Ho : next_oid w mod 2 ^ 96 = next_oid w) by (apply N.mod_small; lia).
  assert (Ho1 : (next_oid w + 1) mod 2 ^ 96 = next_oid w + 1)
    by (apply N.mod_small; lia).
  assert (Hfresh_c :
            Forall (fun c => has_id (Some (next_oid w)) c = false) (categories w)).
  { eapply Forall_impl; [exact Hcs|]. intros c Hc. cbn in Hc.
    apply bool_decide_eq_false. intros E. injection E as E. lia. }
  assert (Hfresh_a :
            Forall (fun a => animal_has_id (Some (next_oid w + 1)) a = false)
                   (animals w)).
  { eapply Forall_impl; [exact Has|]. intros a Ha. cbn in Ha.
    apply bool_decide_eq_false. intros E. injection E as E. lia. }
  assert (Hstr : ObjectId.of_string (ObjectId.to_string (next_oid w))
                 = Some (next_oid w)).
  { apply ObjectIdFacts.of_string_to_string. unfold ObjectId.in_range. lia. }
  assert (Hex_c : existsb (has_id (Some (next_oid w))) (categories w) = false).
  { apply existsb_none. exact Hfresh_c. }
  assert (Hex_a : existsb (animal_has_id (Some (next_oid w + 1))) (animals w)
                  = false).
  { apply existsb_none. exact Hfresh_a. }
  assert (Hfind : List.find (has_id (Some (next_oid w)))
                            (categories w ++ [category]) = Some category).
  { apply find_app_fresh; [exact Hfresh_c|].
    apply bool_decide_eq_true_2. reflexivity. }
  assert (Hfilter :
            List.filter (fun a => bool_decide (a_category a = Some (next_oid w)))
                        (animals w ++ [animal]) = [animal]).
  { apply filter_app_fresh.
    - eapply Forall_impl; [exact Hunref|]. intros a Ha.
      apply bool_decide_eq_false. exact Ha.
    - apply bool_decide_eq_true_2. reflexivity. }
  exists category.
  eexists. exists animal. eexists.
  exists (populate (categories w ++ [category]) animal).
  subst category animal.
  split; [|split; [reflexivity|split; [|split; [|split; [reflexivity|split]]]]].
  - unfold addCategory. rewrite lookup_request_body. run.
    rewrite !falsy_nonempty. run.
    rewrite Ho, Hex_c. run.
    reflexivity.
  - unfold addAnimal.
    rewrite lookup_request_param, lookup_request_body.
    change (file (request _ _ (Some f))) with (Some f).
    rewrite (isValid_truthy _ (ObjectIdFacts.isValid_to_string _)).
    rewrite falsy_nonempty, falsy_image. run.
    rewrite Hstr. run. rewrite Hfind. run.
    rewrite falsy_nonempty. run. rewrite Ho1, Hex_a. run.
    reflexivity.
  - unfold getAnimalsByCategoryId. rewrite lookup_request_param. run.
    rewrite Hstr. run. rewrite Hfilter. reflexivity.
  - reflexivity.
  - unfold populate. cbn [a_category]. rewrite Hfind. reflexivity.
Qed.

Lemma create_then_list_round_trip_witness :
  exists category w1 animal w2 listed,
    addCategory 10 (request [] [("name", "Reptiles")] None) empty_world
    = (mkResponse 201 (JCategory category), w1) /\
    c_name category = Some "Reptiles" /\
    addAnimal 20
      (request [("categoryId", ObjectId.to_string (c_id category))]
               [("name", "Iguana")] (Some iguana_png))
      w1
    = (mkResponse 201 (JAnimalAdded "Animal added successfully." animal), w2) /\
    fst (getAnimalsByCategoryId
           (request [("categoryId", ObjectId.to_string (c_id category))] [] None)
           w2)
    = mkResponse 200 (JAnimals [listed]) /\
    pa_id listed = a_id animal /\
    pa_name listed = Some "Iguana" /\
    pa_category listed = Some category.
Proof.
  apply (create_then_list_round_trip 10 20 iguana_png empty_world).
  - split; constructor.
  - vm_compute. reflexivity.
  - constructor.
Defined.

(** The same scenario, run on the empty store. *)
Example round_trip_on_empty_store :
  let w1 := snd (addCategory 10 (request [] [("name", "Reptiles")] None)
                             empty_world) in
  let w2 := snd (addAnimal 20
                   (request [("categoryId", "000000000000000000000000")]
                            [("name", "Iguana")] (Some iguana_png))
                   w1) in
  fst (getAnimalsByCategoryId
         (request [("categoryId", "000000000000000000000000")] [] None) w2)
  = mkResponse 200
      (JAnimals
         [mkPopulated 1 (Some "Iguana") (Some "/uploads/animals/20-iguana.png")
            (Some (mkCategory 0 (Some "Reptiles") (Some 10) (Some 10)))
            (Some 20) (Some 20)]).
Proof. vm_compute. reflexivity. Qed.

(** * Further properties of the controllers *)

(** ** Equations of the controllers, path by path *)

Lemma of_string_isValid id o :
  ObjectId.of_string id = Some o -> ObjectId.isValid id = true.
Proof.
  unfold ObjectId.of_string. destruct (ObjectId.isValid id); [reflexivity|discriminate].
Qed.

Lemma addCategory_created now req w name :
  body req !! "name" = Some name ->
  name <> "" ->
  existsb (has_id (Some (next_oid w mod 2 ^ 96))) (categories w) = false ->
  addCategory now req w
  = (mkResponse 201
       (JCategory (mkCategory (next_oid w mod 2 ^ 96) (Some name)
                              (Some now) (Some now))),
     mkWorld
       (categories w
        ++ [mkCategory (next_oid w mod 2 ^ 96) (Some name) (Some now) (Some now)])
       (animals w) (next_oid w + 1) (uploads w)
       (calls w
        ++ [Category_save_call
              (mkCategory (next_oid w mod 2 ^ 96) (Some name) None None)])).
Proof.
  intros Hname Hne Hfresh. unfold addCategory. rewrite Hname.
  assert (Hf : falsy (Some name) = false) by (apply bool_decide_eq_false; exact Hne).
  rewrite Hf. run. rewrite Hf. run. rewrite Hfresh. run. reflexivity.
Qed.

Lemma getCategoryById_found req w id o c :
  params req !! "categoryId" = Some id ->
  ObjectId.of_string id = Some o ->
  List.find (has_id (Some o)) (categories w) = Some c ->
  getCategoryById req w
  = (mkResponse 200
       (JCategoryAnimals c (populate (categories w) <$> animals_of o w)),
     record (Animal_find_call (Some (IdString (Some id))))
            (record (Category_findById_call (Some id)) w)).
Proof.
  intros Hid Ho Hfind. unfold getCategoryById. rewrite Hid.
  cbn [ObjectId_isValid]. rewrite (of_string_isValid id o Ho). cbn [negb].
  run. rewrite Ho. run. rewrite Hfind. run. reflexivity.
Qed.

Lemma getCategoryById_not_found req w id o :
  params req !! "categoryId" = Some id ->
  ObjectId.of_string id = Some o ->
  List.find (has_id (Some o)) (categories w) = None ->
  getCategoryById req w
  = (mkResponse 404 (JMessage "Category not found"),
     record (Category_findById_call (Some id)) w).
Proof.
  intros Hid Ho Hfind. unfold getCategoryById. rewrite Hid.
  cbn [ObjectId_isValid]. rewrite (of_string_isValid id o Ho). cbn [negb].
  run. rewrite Ho. run. rewrite Hfind. reflexivity.
Qed.

Lemma updateCategory_valid now req w id o name :
  params req !! "categoryId" = Some id ->
  ObjectId.of_string id = Some o ->
  body req !! "name" = Some name ->
  name <> "" ->
  updateCategory now req w
  = (match List.find (has_id (Some o)) (categories w) with
     | Some c =>
         mkResponse 200
           (JCategory (mkCategory (c_id c) (Some name) (c_createdAt c) (Some now)))
     | None => mkResponse 404 (JMessage "Category not found")
     end,
     mkWorld
       (update_first (has_id (Some o))
          (fun c => mkCategory (c_id c) (Some name) (c_createdAt c) (Some now))
          (categories w))
       (animals w) (next_oid w) (uploads w)
       (calls w ++ [Category_findByIdAndUpdate_call (Some id) (Some name)])).
Proof.
  intros Hid Ho Hname Hne. unfold updateCategory. rewrite Hid, Hname.
  cbn [ObjectId_isValid]. rewrite (of_string_isValid id o Ho). cbn [negb].
  replace (falsy (Some name)) with false
    by (symmetry; apply bool_decide_eq_false; exact Hne).
  run. rewrite Ho. run.
  destruct (List.find (has_id (Some o)) (categories w)); reflexivity.
Qed.

Lemma deleteCategory_valid req w id o :
  params req !! "id" = Some id ->
  ObjectId.of_string id = Some o ->
  deleteCategory req w
  = (match List.find (has_id (Some o)) (categories w) with
     | Some _ => mkResponse 200 (JMessage "Category deleted successfully")
     | None => mkResponse 404 (JMessage "Category not found")
     end,
     mkWorld (remove_first (has_id (Some o)) (categories w))
       (animals w) (next_oid w) (uploads w)
       (calls w ++ [Category_findByIdAndDelete_call (Some id)])).
Proof.
  intros Hid Ho. unfold deleteCategory. rewrite Hid.
  cbn [ObjectId_isValid]. rewrite (of_string_isValid id o Ho). cbn [negb].
  run. rewrite Ho. run.
  destruct (List.find (has_id (Some o)) (categories w)); reflexivity.
Qed.

Lemma getAnimals_eq req w :
  getAnimals req w
  = (mkResponse 200 (JAnimals (populate (categories w) <$> animals w)),
     record (Animal_find_call None) w).
Proof. unfold getAnimals. run. reflexivity. Qed.

Lemma getAnimalsByCategoryId_valid req w id o :
  params req !! "categoryId" = Some id ->
  ObjectId.of_string id = Some o ->
  getAnimalsByCategoryId req w
  = (match animals_of o w with
     | [] => mkResponse 404 (JMessage "No animals found in this category")
     | _ :: _ =>
         mkResponse 200 (JAnimals (populate (categories w) <$> animals_of o w))
     end,
     record (Animal_find_call (Some (IdString (Some id)))) w).
Proof.
  intros Hid Ho. unfold getAnimalsByCategoryId. rewrite Hid. run.
  rewrite Ho. run. fold (animals_of o w).
  destruct (animals_of o w); reflexivity.
Qed.

Lemma getAnimalsByCategoryName_eq req w :
  getAnimalsByCategoryName req w
  = match List.find (fun c => bool_decide (c_name c = params req !! "categoryName"))
                    (categories w) with
    | None =>
        (mkResponse 404 (JMessage "Category not found"),
         record (Category_findOne_call (params req !! "categoryName")) w)
    | Some c =>
        (match animals_of (c_id c) w with
         | [] => mkResponse 404 (JMessage "No animals found in this category")
         | _ :: _ =>
             mkResponse 200
               (JAnimals (populate (categories w) <$> animals_of (c_id c) w))
         end,
         record (Animal_find_call (Some (IdObject (c_id c))))
                (record (Category_findOne_call (params req !! "categoryName")) w))
    end.
Proof.
  unfold getAnimalsByCategoryName. run.
  destruct (List.find _ (categories w)) as [c|]; [|reflexivity].
  run. fold (animals_of (c_id c) w).
  destruct (animals_of (c_id c) w); reflexivity.
Qed.

Lemma deleteAnimal_valid req w id o :
  params req !! "id" = Some id ->
  ObjectId.of_string id = Some o ->
  deleteAnimal req w
  = (mkResponse 200 (JMessage "Animal deleted successfully"),
     mkWorld (categories w)
       (remove_first (animal_has_id (Some o)) (animals w))
       (next_oid w) (uploads w)
       (calls w ++ [Animal_findByIdAndDelete_call (Some id)])).
Proof.
  intros Hid Ho. unfold deleteAnimal. rewrite Hid. run. rewrite Ho. run.
  reflexivity.
Qed.

Lemma addAnimal_created now req w id o c name f :
  params req !! "categoryId" = Some id ->
  ObjectId.of_string id = Some o ->
  List.find (has_id (Some o)) (categories w) = Some c ->
  body req !! "name" = Some name ->
  name <> "" ->
  file req = Some f ->
  existsb (animal_has_id (Some (next_oid w mod 2 ^ 96))) (animals w) = false ->
  addAnimal now req w
  = (mkResponse 201
       (JAnimalAdded "Animal added successfully."
          (mkAnimal (next_oid w mod 2 ^ 96) (Some name)
             (Some ("/uploads/animals/" ++ filename f)) (Some (c_id c))
             (Some now) (Some now))),
     mkWorld (categories w)
       (animals w
        ++ [mkAnimal (next_oid w mod 2 ^ 96) (Some name)
              (Some ("/uploads/animals/" ++ filename f)) (Some (c_id c))
              (Some now) (Some now)])
       (next_oid w + 1) (uploads w)
       (calls w
        ++ [Category_findById_call (Some id)]
        ++ [Animal_save_call
              (mkAnimal (next_oid w mod 2 ^ 96) (Some name)
                 (Some ("/uploads/animals/" ++ filename f)) (Some (c_id c))
                 None None)])).
Proof.
  intros Hid Ho Hfind Hname Hne Hfile Hfresh.
  assert (Hf : falsy (Some name) = false) by (apply bool_decide_eq_false; exact Hne).
  unfold addAnimal. rewrite Hid, Hname, Hfile, Hf.
  rewrite (isValid_truthy id (of_string_isValid id o Ho)), falsy_image.
  run. rewrite Ho. run. rewrite Hfind. run. rewrite Hf. run.
  rewrite Hfresh. run. rewrite <- app_assoc. reflexivity.
Qed.

(** ** Facts on lookups in a collection *)

Lemma find_has_id_Some o l c :
  List.find (has_id (Some o)) l = Some c -> c ∈ l /\ c_id c = o.
Proof.
  intros H. apply find_some in H as [Hin Hid].
  split; [now apply list_elem_of_In|].
  apply bool_decide_eq_true in Hid. congruence.
Qed.

Lemma find_has_id_None o l :
  List.find (has_id (Some o)) l = None -> Forall (fun c => c_id c <> o) l.
Proof.
  intros H. apply Forall_forall. intros c Hc Hid.
  apply list_elem_of_In in Hc.
  pose proof (find_none _ _ H c Hc) as Hn.
  apply bool_decide_eq_false in Hn. congruence.
Qed.

Lemma find_unique l c :
  NoDup (c_id <$> l) -> c ∈ l -> List.find (has_id (Some (c_id c))) l = Some c.
Proof.
  induction l as [|x l IH]; intros Hnd Hin; [inversion Hin|].
  cbn [fmap list_fmap] in Hnd. apply NoDup_cons in Hnd as [Hx Hnd].
  cbn [List.find]. unfold has_id at 1.
  destruct (bool_decide (Some (c_id x) = Some (c_id c))) eqn:E.
  - apply bool_decide_eq_true in E. injection E as E.
    apply elem_of_cons in Hin as [->|Hin]; [reflexivity|].
    exfalso. apply Hx. rewrite E. apply list_elem_of_fmap. eauto.
  - apply bool_decide_eq_false in E.
    apply elem_of_cons in Hin as [->|Hin]; [congruence|]. auto.
Qed.

Lemma names_no_category_of_string id o w :
  ObjectId.of_string id = Some o ->
  names_no_category id w ->
  List.find (has_id (Some o)) (categories w) = None.
Proof. intros Ho H. rewrite <- Ho. now apply names_no_category_find. Qed.

Lemma populate_category cs a o c :
  a_category a = Some o ->
  List.find (has_id (Some o)) cs = Some c ->
  pa_category (populate cs a) = Some c.
Proof. intros Ha Hc. unfold populate. cbn. now rewrite Ha. Qed.

Lemma animals_of_spec o w a : a ∈ animals_of o w <-> a ∈ animals w /\ a_category a = Some o.
Proof.
  unfold animals_of. rewrite !list_elem_of_In, filter_In, bool_decide_eq_true.
  reflexivity.
Qed.

Lemma pa_id_populate cs (l : list Animal) : pa_id <$> (populate cs <$> l) = a_id <$> l.
Proof. induction l as [|a l IH]; cbn; [reflexivity | now rewrite IH]. Qed.

Lemma reptile_world_wf : store_wf reptile_world.
Proof. split; repeat constructor. Qed.

Lemma reptile_world_unique : unique_ids reptile_world.
Proof. split; cbn; repeat constructor; set_solver. Qed.

Lemma reptile_world_no_f : names_no_category idf reptile_world.
Proof. repeat constructor. discriminate. Qed.

(** ** Categories: creation *)

(** X1: a request to create a category without a name, or with an empty
    one, is answered 400; no call is issued on the model and the world is
    unchanged. *)
Theorem addCategory_missing_name now req w :
  falsy (body req !! "name") = true ->
  addCategory now req w
  = (mkResponse 400 (JMessage "Category name is required"), w).
Proof. intros H. unfold addCategory. rewrite H. reflexivity. Qed.

Lemma addCategory_missing_name_witness :
  addCategory 30 (named "") reptile_world
  = (mkResponse 400 (JMessage "Category name is required"), reptile_world).
Proof. apply (addCategory_missing_name 30 (named "") reptile_world). reflexivity. Defined.

(** X2: in a well-formed store, creating a category with a name is answered
    201 with a document of this name stamped with the time of the request;
    the document is appended to the categories and the animals are
    unchanged. A request for the identifier printed in this response is
    then answered 200 with this very document, and with no animal when no
    animal refers to the identifier. *)
Theorem addCategory_then_getCategoryById now req w name :
  body req !! "name" = Some name ->
  name <> "" ->
  store_wf w ->
  next_oid w < 2 ^ 96 ->
  exists c w1,
    addCategory now req w = (mkResponse 201 (JCategory c), w1) /\
    c_name c = Some name /\
    c_createdAt c = Some now /\
    c_updatedAt c = Some now /\
    categories w1 = (categories w ++ [c])%list /\
    animals w1 = animals w /\
    forall req',
      params req' !! "categoryId" = Some (ObjectId.to_string (c_id c)) ->
      exists listed,
        fst (getCategoryById req' w1) = mkResponse 200 (JCategoryAnimals c listed) /\
        (unreferenced (c_id c) w -> listed = []).
Proof.
  intros Hname Hne [Hcs _] Hsupply.
  assert (Ho : next_oid w mod 2 ^ 96 = next_oid w) by (apply N.mod_small; lia).
  assert (Hfresh : Forall (fun c => has_id (Some (next_oid w)) c = false)
                          (categories w)).
  { eapply Forall_impl; [exact Hcs|]. intros c Hc. cbn in Hc.
    apply bool_decide_eq_false. intros E. injection E as E. lia. }
  do 2 eexists. split.
  - apply (addCategory_created now req w name Hname Hne).
    rewrite Ho. apply existsb_none, Hfresh.
  - rewrite Ho. cbn [c_id c_name c_createdAt c_updatedAt categories animals].
    repeat (split; [reflexivity|]).
    intros req' Hid. eexists. split.
    + erewrite getCategoryById_found; [reflexivity | exact Hid | |].
      * apply ObjectIdFacts.of_string_to_string. exact Hsupply.
      * cbn [categories]. apply find_app_fresh; [exact Hfresh|].
        apply bool_decide_eq_true_2. reflexivity.
    + intros Hun. unfold animals_of. cbn [animals].
      replace (List.filter _ (animals w)) with (@nil Animal); [reflexivity|].
      symmetry. induction Hun as [|a l Ha _ IH]; [reflexivity|].
      cbn. rewrite bool_decide_eq_false_2 by exact Ha. exact IH.
Qed.

Lemma addCategory_then_getCategoryById_witness :
  exists c w1,
    addCategory 30 (named "Birds") reptile_world
    = (mkResponse 201 (JCategory c), w1) /\
    c_name c = Some "Birds" /\
    c_createdAt c = Some 30 /\
    c_updatedAt c = Some 30 /\
    categories w1 = (categories reptile_world ++ [c])%list /\
    animals w1 = animals reptile_world /\
    forall req',
      params req' !! "categoryId" = Some (ObjectId.to_string (c_id c)) ->
      exists listed,
        fst (getCategoryById req' w1) = mkResponse 200 (JCategoryAnimals c listed) /\
        (unreferenced (c_id c) reptile_world -> listed = []).
Proof.
  apply (addCategory_then_getCategoryById 30 (named "Birds") reptile_world "Birds").
  - reflexivity.
  - discriminate.
  - exact reptile_world_wf.
  - reflexivity.
Defined.

(** ** Categories: lookup by identifier *)

(** X3: a request for a category by a well-formed identifier that is the
    identifier of no category is answered 404, and the store and the
    upload directory are unchanged. *)
Theorem getCategoryById_unknown req w id :
  params req !! "categoryId" = Some id ->
  ObjectId.isValid id = true ->
  names_no_category id w ->
  fst (getCategoryById req w) = mkResponse 404 (JMessage "Category not found") /\
  same_data w (snd (getCategoryById req w)).
Proof.
  intros Hid Hv Hno. destruct (isValid_of_string id Hv) as [o Ho].
  rewrite (getCategoryById_not_found req w id o Hid Ho
             (names_no_category_of_string id o w Ho Hno)).
  repeat split.
Qed.

Lemma getCategoryById_unknown_witness :
  fst (getCategoryById (by_categoryId idf) reptile_world)
  = mkResponse 404 (JMessage "Category not found") /\
  same_data reptile_world (snd (getCategoryById (by_categoryId idf) reptile_world)).
Proof.
  apply (getCategoryById_unknown (by_categoryId idf) reptile_world idf).
  - reflexivity.
  - reflexivity.
  - exact reptile_world_no_f.
Defined.

Lemma populate_shown cs a o c :
  a_category a = Some o ->
  List.find (has_id (Some o)) cs = c ->
  populate cs a = shown a c.
Proof. intros Ha Hc. unfold populate, shown. now rewrite Ha, Hc. Qed.

Lemma populate_animals_of cs o c w :
  List.find (has_id (Some o)) cs = c ->
  populate cs <$> animals_of o w = (fun a => shown a c) <$> animals_of o w.
Proof.
  intros Hc. apply Forall_fmap_ext_1, Forall_forall. intros a Ha.
  apply animals_of_spec in Ha as [_ Ha]. now apply populate_shown with (o := o).
Qed.

(** X4: in a store with unique identifiers, a request for a category by
    the identifier of a category [c] is answered 200 with [c] and with the
    animals that refer to [c], in the order of the store and no other:
    each is shown with its own identifier, name, image and timestamps, and
    with its category field populated to [c]. *)
Theorem getCategoryById_lists_its_animals req w id c :
  params req !! "categoryId" = Some id ->
  ObjectId.of_string id = Some (c_id c) ->
  c ∈ categories w ->
  unique_ids w ->
  fst (getCategoryById req w)
  = mkResponse 200
      (JCategoryAnimals c
         ((fun a => shown a (Some c)) <$> animals_of (c_id c) w)).
Proof.
  intros Hid Ho Hin [Hnd _].
  pose proof (find_unique _ c Hnd Hin) as Hfind.
  rewrite (getCategoryById_found req w id (c_id c) c Hid Ho Hfind).
  cbn [fst]. now rewrite (populate_animals_of _ _ (Some c) w Hfind).
Qed.

Lemma getCategoryById_lists_its_animals_witness :
  fst (getCategoryById (by_categoryId id0) reptile_world)
  = mkResponse 200
      (JCategoryAnimals reptiles
         ((fun a => shown a (Some reptiles))
            <$> animals_of (c_id reptiles) reptile_world)).
Proof.
  apply (getCategoryById_lists_its_animals (by_categoryId id0) reptile_world id0
           reptiles).
  - reflexivity.
  - reflexivity.
  - constructor.
  - exact reptile_world_unique.
Defined.

(** ** Categories: renaming *)

Lemma find_update_first o f l :
  (forall c, c_id (f c) = c_id c) ->
  List.find (has_id (Some o)) (update_first (has_id (Some o)) f l)
  = f <$> List.find (has_id (Some o)) l.
Proof.
  intros Hf. induction l as [|x l IH]; [reflexivity|].
  cbn [update_first List.find].
  destruct (has_id (Some o) x) eqn:E; cbn [List.find].
  - unfold has_id in *. rewrite Hf, E. reflexivity.
  - rewrite E. exact IH.
Qed.

Lemma update_first_ids o f l :
  (forall c, c_id (f c) = c_id c) ->
  c_id <$> update_first (has_id (Some o)) f l = c_id <$> l.
Proof.
  intros Hf. induction l as [|x l IH]; [reflexivity|].
  cbn [update_first]. destruct (has_id (Some o) x); cbn.
  - now rewrite Hf.
  - now rewrite IH.
Qed.

Lemma update_first_others o f l d :
  d ∈ l -> c_id d <> o -> d ∈ update_first (has_id (Some o)) f l.
Proof.
  intros Hin Hne. induction l as [|x l IH]; [inversion Hin|].
  cbn [update_first]. apply elem_of_cons in Hin as [->|Hin].
  - unfold has_id.
    rewrite (bool_decide_eq_false_2 (Some (c_id x) = Some o)) by congruence.
    constructor.
  - destruct (has_id (Some o) x); apply elem_of_cons; auto.
Qed.

Lemma update_first_none {A} (p : A -> bool) f (l : list A) :
  List.find p l = None -> update_first p f l = l.
Proof.
  induction l as [|x l IH]; [reflexivity|]. cbn.
  destruct (p x); [discriminate|]. intros H. now rewrite IH.
Qed.

(** X5: a request to rename a category without a name, or with an empty
    one, is answered 400 whatever the identifier, and the world is
    unchanged. *)
Theorem updateCategory_missing_name now req w :
  falsy (body req !! "name") = true ->
  status (fst (updateCategory now req w)) = 400 /\
  snd (updateCategory now req w) = w.
Proof.
  intros H. unfold updateCategory. rewrite H.
  destruct (negb _); split; reflexivity.
Qed.

Lemma updateCategory_missing_name_witness :
  status (fst (updateCategory 30 (by_categoryId id0) reptile_world)) = 400 /\
  snd (updateCategory 30 (by_categoryId id0) reptile_world) = reptile_world.
Proof.
  apply (updateCategory_missing_name 30 (by_categoryId id0) reptile_world).
  reflexivity.
Defined.

(** X6: renaming an existing category is answered 200 with the category
    under its new name, same identifier, same creation time, and the time
    of the request as update time. Afterwards the identifier looks up this
    renamed document, the identifiers of the categories are the same in
    the same order, every other category is still there, and the animals
    are unchanged. *)
Theorem updateCategory_renames now req w id o name c :
  params req !! "categoryId" = Some id ->
  ObjectId.of_string id = Some o ->
  body req !! "name" = Some name ->
  name <> "" ->
  List.find (has_id (Some o)) (categories w) = Some c ->
  let c' := mkCategory (c_id c) (Some name) (c_createdAt c) (Some now) in
  let w' := snd (updateCategory now req w) in
  fst (updateCategory now req w) = mkResponse 200 (JCategory c') /\
  List.find (has_id (Some o)) (categories w') = Some c' /\
  c_id <$> categories w' = c_id <$> categories w /\
  (forall d, d ∈ categories w -> c_id d <> o -> d ∈ categories w') /\
  animals w' = animals w.
Proof.
  intros Hid Ho Hname Hne Hfind c' w'. subst w'.
  rewrite (updateCategory_valid now req w id o name Hid Ho Hname Hne), Hfind.
  cbn [fst snd categories animals].
  split; [reflexivity|]. split; [|split; [|split; [|reflexivity]]].
  - rewrite find_update_first by reflexivity. rewrite Hfind. reflexivity.
  - apply update_first_ids. reflexivity.
  - intros d Hd Hne'. now apply update_first_others.
Qed.

Lemma updateCategory_renames_witness :
  let c' := mkCategory 0 (Some "Lizards") (Some 10) (Some 30) in
  let w' := snd (updateCategory 30 (rename_to id0 "Lizards") reptile_world) in
  fst (updateCategory 30 (rename_to id0 "Lizards") reptile_world)
  = mkResponse 200 (JCategory c') /\
  List.find (has_id (Some 0)) (categories w') = Some c' /\
  c_id <$> categories w' = c_id <$> categories reptile_world /\
  (forall d, d ∈ categories reptile_world -> c_id d <> 0 -> d ∈ categories w') /\
  animals w' = animals reptile_world.
Proof.
  apply (updateCategory_renames 30 (rename_to id0 "Lizards") reptile_world id0 0
           "Lizards" reptiles); try reflexivity.
  discriminate.
Defined.

(** X7: after a category is renamed, the animals that refer to it are
    listed with the renamed category: a request for the category by its
    identifier is answered 200 with the new name, and each animal of the
    answer has its category field populated to the renamed document. *)
Theorem updateCategory_then_getCategoryById now req req' w id o name c :
  params req !! "categoryId" = Some id ->
  params req' !! "categoryId" = Some id ->
  ObjectId.of_string id = Some o ->
  body req !! "name" = Some name ->
  name <> "" ->
  List.find (has_id (Some o)) (categories w) = Some c ->
  exists listed,
    fst (getCategoryById req' (snd (updateCategory now req w)))
    = mkResponse 200
        (JCategoryAnimals
           (mkCategory (c_id c) (Some name) (c_createdAt c) (Some now)) listed) /\
    pa_id <$> listed = a_id <$> animals_of o w /\
    Forall (fun pa =>
              pa_category pa
              = Some (mkCategory (c_id c) (Some name) (c_createdAt c) (Some now)))
           listed.
Proof.
  intros Hid Hid' Ho Hname Hne Hfind.
  rewrite (updateCategory_valid now req w id o name Hid Ho Hname Hne).
  cbn [snd].
  erewrite getCategoryById_found; [| exact Hid' | exact Ho |].
  2:{ cbn [categories]. rewrite find_update_first by reflexivity.
      rewrite Hfind. reflexivity. }
  eexists. split; [reflexivity|]. split; [apply pa_id_populate|].
  apply Forall_fmap, Forall_forall. intros a Ha.
  apply animals_of_spec in Ha as [_ Ha]. cbn [animals] in Ha.
  unfold compose. cbn [categories].
  erewrite populate_category; [reflexivity | exact Ha |].
  rewrite find_update_first by reflexivity. rewrite Hfind. reflexivity.
Qed.

Lemma updateCategory_then_getCategoryById_witness :
  exists listed,
    fst (getCategoryById (by_categoryId id0)
           (snd (updateCategory 30 (rename_to id0 "Lizards") reptile_world)))
    = mkResponse 200
        (JCategoryAnimals
           (mkCategory (c_id reptiles) (Some "Lizards") (c_createdAt reptiles)
                       (Some 30))
           listed) /\
    pa_id <$> listed = a_id <$> animals_of 0 reptile_world /\
    Forall (fun pa =>
              pa_category pa
              = Some (mkCategory (c_id reptiles) (Some "Lizards")
                                 (c_createdAt reptiles) (Some 30)))
           listed.
Proof.
  apply (updateCategory_then_getCategoryById 30 (rename_to id0 "Lizards")
           (by_categoryId id0) reptile_world id0 0 "Lizards" reptiles);
    try reflexivity.
  discriminate.
Defined.

(** X8: renaming under a well-formed identifier that is the identifier of
    no category is answered 404, and the store and the upload directory
    are unchanged. *)
Theorem updateCategory_unknown now req w id name :
  params req !! "categoryId" = Some id ->
  ObjectId.isValid id = true ->
  body req !! "name" = Some name ->
  name <> "" ->
  names_no_category id w ->
  fst (updateCategory now req w) = mkResponse 404 (JMessage "Category not found") /\
  same_data w (snd (updateCategory now req w)).
Proof.
  intros Hid Hv Hname Hne Hno. destruct (isValid_of_string id Hv) as [o Ho].
  pose proof (names_no_category_of_string id o w Ho Hno) as Hfind.
  rewrite (updateCategory_valid now req w id o name Hid Ho Hname Hne), Hfind.
  split; [reflexivity|]. unfold same_data. cbn [snd categories animals next_oid uploads].
  rewrite (update_first_none _ _ _ Hfind). repeat split.
Qed.

Lemma updateCategory_unknown_witness :
  fst (updateCategory 30 (rename_to idf "Lizards") reptile_world)
  = mkResponse 404 (JMessage "Category not found") /\
  same_data reptile_world
    (snd (updateCategory 30 (rename_to idf "Lizards") reptile_world)).
Proof.
  apply (updateCategory_unknown 30 (rename_to idf "Lizards") reptile_world idf
           "Lizards"); try reflexivity.
  - discriminate.
  - exact reptile_world_no_f.
Defined.

(** ** Removal from a collection with unique identifiers *)

Section Keyed.
Context {A : Type} (key : A -> N).

Lemma remove_first_subset o l y : y ∈ remove_first (keyed key o) l -> y ∈ l.
Proof.
  induction l as [|x l IH]; [intros H; inversion H|]. cbn.
  destruct (keyed key o x); rewrite ?elem_of_cons; intros H.
  - auto.
  - destruct H; auto.
Qed.

Lemma remove_first_NoDup o l :
  NoDup (key <$> l) -> NoDup (key <$> remove_first (keyed key o) l).
Proof.
  induction l as [|x l IH]; [intros; constructor|]. cbn.
  intros H. apply NoDup_cons in H as [Hx Hl].
  destruct (keyed key o x); [exact Hl|].
  cbn. apply NoDup_cons. split; [|auto].
  intros Hin. apply Hx. apply list_elem_of_fmap in Hin as (y & Hy & Hin).
  apply list_elem_of_fmap. exists y. split; [exact Hy|].
  eapply remove_first_subset, Hin.
Qed.

Lemma remove_first_gone o l :
  NoDup (key <$> l) ->
  Forall (fun x => key x <> o) (remove_first (keyed key (Some o)) l).
Proof.
  induction l as [|x l IH]; [constructor|]. cbn.
  intros H. apply NoDup_cons in H as [Hx Hl].
  unfold keyed at 1. destruct (bool_decide (Some (key x) = Some o)) eqn:E.
  - apply bool_decide_eq_true in E. injection E as E.
    apply Forall_forall. intros y Hy Hk. apply Hx.
    apply list_elem_of_fmap. exists y. split; [congruence | exact Hy].
  - apply bool_decide_eq_false in E. constructor; [congruence | auto].
Qed.

Lemma remove_first_others o l d :
  d ∈ l -> key d <> o -> d ∈ remove_first (keyed key (Some o)) l.
Proof.
  intros Hin Hne. induction l as [|x l IH]; [inversion Hin|]. cbn.
  apply elem_of_cons in Hin as [->|Hin].
  - unfold keyed. rewrite bool_decide_eq_false_2 by congruence. constructor.
  - destruct (keyed key (Some o) x); [exact Hin|]. apply elem_of_cons. auto.
Qed.

Lemma find_gone o l :
  Forall (fun x => key x <> o) l -> List.find (keyed key (Some o)) l = None.
Proof.
  intros H. apply find_none_Forall. eapply Forall_impl; [exact H|].
  intros x Hx. apply bool_decide_eq_false. congruence.
Qed.

End Keyed.

Lemma categories_remove_gone o l :
  NoDup (c_id <$> l) ->
  Forall (fun d => c_id d <> o) (remove_first (has_id (Some o)) l).
Proof. exact (remove_first_gone c_id o l). Qed.

Lemma categories_remove_others o l d :
  d ∈ l -> c_id d <> o -> d ∈ remove_first (has_id (Some o)) l.
Proof. exact (remove_first_others c_id o l d). Qed.

Lemma categories_find_gone o l :
  Forall (fun d => c_id d <> o) l -> List.find (has_id (Some o)) l = None.
Proof. exact (find_gone c_id o l). Qed.

Lemma animals_remove_gone o l :
  NoDup (a_id <$> l) ->
  Forall (fun a => a_id a <> o) (remove_first (animal_has_id (Some o)) l).
Proof. exact (remove_first_gone a_id o l). Qed.

Lemma animals_remove_others o l a :
  a ∈ l -> a_id a <> o -> a ∈ remove_first (animal_has_id (Some o)) l.
Proof. exact (remove_first_others a_id o l a). Qed.

(** ** Categories: deletion *)

(** X9: in a store with unique identifiers, deleting an existing category
    is answered 200; afterwards no category has this identifier, every
    other category is still there, a request for the category is answered
    404, and so is a second request to delete it. *)
Theorem deleteCategory_then_gone req req' w id o c :
  params req !! "id" = Some id ->
  params req' !! "categoryId" = Some id ->
  ObjectId.of_string id = Some o ->
  List.find (has_id (Some o)) (categories w) = Some c ->
  unique_ids w ->
  let w' := snd (deleteCategory req w) in
  fst (deleteCategory req w)
  = mkResponse 200 (JMessage "Category deleted successfully") /\
  Forall (fun d => c_id d <> o) (categories w') /\
  (forall d, d ∈ categories w -> c_id d <> o -> d ∈ categories w') /\
  fst (getCategoryById req' w') = mkResponse 404 (JMessage "Category not found") /\
  fst (deleteCategory req w') = mkResponse 404 (JMessage "Category not found").
Proof.
  intros Hid Hid' Ho Hfind [Hnd _] w'. subst w'.
  rewrite (deleteCategory_valid req w id o Hid Ho), Hfind. cbn [fst snd].
  pose proof (categories_remove_gone o (categories w) Hnd) as Hgone.
  split; [reflexivity|]. split; [exact Hgone|]. split.
  - intros d Hd Hne. apply (categories_remove_others o _ d Hd Hne).
  - split.
    + erewrite getCategoryById_not_found; [reflexivity | exact Hid' | exact Ho |].
      apply categories_find_gone, Hgone.
    + rewrite (deleteCategory_valid req _ id o Hid Ho). cbn [fst categories].
      rewrite (categories_find_gone o _ Hgone). reflexivity.
Qed.

Lemma deleteCategory_then_gone_witness :
  let w' := snd (deleteCategory (by_id id0) reptile_world) in
  fst (deleteCategory (by_id id0) reptile_world)
  = mkResponse 200 (JMessage "Category deleted successfully") /\
  Forall (fun d => c_id d <> 0) (categories w') /\
  (forall d, d ∈ categories reptile_world -> c_id d <> 0 -> d ∈ categories w') /\
  fst (getCategoryById (by_categoryId id0) w')
  = mkResponse 404 (JMessage "Category not found") /\
  fst (deleteCategory (by_id id0) w') = mkResponse 404 (JMessage "Category not found").
Proof.
  apply (deleteCategory_then_gone (by_id id0) (by_categoryId id0) reptile_world
           id0 0 reptiles); try reflexivity.
  exact reptile_world_unique.
Defined.

(** X10: deleting under a well-formed identifier that is the identifier of
    no category is answered 404, and the store and the upload directory
    are unchanged. *)
Theorem deleteCategory_unknown req w id :
  params req !! "id" = Some id ->
  ObjectId.isValid id = true ->
  names_no_category id w ->
  fst (deleteCategory req w) = mkResponse 404 (JMessage "Category not found") /\
  same_data w (snd (deleteCategory req w)).
Proof.
  intros Hid Hv Hno. destruct (isValid_of_string id Hv) as [o Ho].
  pose proof (names_no_category_of_string id o w Ho Hno) as Hfind.
  rewrite (deleteCategory_valid req w id o Hid Ho), Hfind.
  split; [reflexivity|]. unfold same_data. cbn [snd categories animals next_oid uploads].
  rewrite remove_first_none; [repeat split|].
  apply Forall_forall. intros d Hd. apply list_elem_of_In in Hd.
  exact (find_none _ _ Hfind d Hd).
Qed.

Lemma deleteCategory_unknown_witness :
  fst (deleteCategory (by_id idf) reptile_world)
  = mkResponse 404 (JMessage "Category not found") /\
  same_data reptile_world (snd (deleteCategory (by_id idf) reptile_world)).
Proof.
  apply (deleteCategory_unknown (by_id idf) reptile_world idf); try reflexivity.
  exact reptile_world_no_f.
Defined.

(** X11: in a store with unique identifiers, after a category is deleted
    the animals that referred to it are still listed under its
    identifier: each is shown with its own identifier, name, image and
    timestamps, and with a null category. *)
Theorem deleteCategory_orphans_listed req req' w id o c :
  params req !! "id" = Some id ->
  params req' !! "categoryId" = Some id ->
  ObjectId.of_string id = Some o ->
  List.find (has_id (Some o)) (categories w) = Some c ->
  unique_ids w ->
  animals_of o w <> [] ->
  fst (getAnimalsByCategoryId req' (snd (deleteCategory req w)))
  = mkResponse 200 (JAnimals ((fun a => shown a None) <$> animals_of o w)).
Proof.
  intros Hid Hid' Ho Hfind [Hnd _] Hne.
  rewrite (deleteCategory_valid req w id o Hid Ho). cbn [snd].
  rewrite (getAnimalsByCategoryId_valid req' _ id o Hid' Ho). cbn [fst].
  match goal with
  | |- context [animals_of o ?v] =>
      change (animals_of o v) with (animals_of o w)
  end.
  destruct (animals_of o w) as [|a l] eqn:Hl; [congruence|].
  rewrite <- Hl. f_equal. f_equal. cbn [categories].
  apply populate_animals_of.
  apply categories_find_gone, categories_remove_gone, Hnd.
Qed.

Lemma deleteCategory_orphans_listed_witness :
  fst (getAnimalsByCategoryId (by_categoryId id0)
         (snd (deleteCategory (by_id id0) reptile_world)))
  = mkResponse 200
      (JAnimals ((fun a => shown a None) <$> animals_of 0 reptile_world)).
Proof.
  apply (deleteCategory_orphans_listed (by_id id0) (by_categoryId id0)
           reptile_world id0 0 reptiles); try reflexivity.
  - exact reptile_world_unique.
  - discriminate.
Defined.

(** ** Animals: listings *)

Lemma populate_resolved w a : resolved w a (populate (categories w) a).
Proof.
  unfold resolved, populate. cbn [pa_category].
  destruct (a_category a) as [o|]; [|intros c _; discriminate].
  destruct (List.find (has_id (Some o)) (categories w)) as [c|] eqn:E.
  - apply find_has_id_Some in E as [Hin Hid]. split; [exact Hin | congruence].
  - intros c Hc Heq. apply find_has_id_None in E.
    rewrite Forall_forall in E. apply (E c Hc). congruence.
Qed.

Lemma same_data_record c w : same_data w (record c w).
Proof. repeat split. Qed.

Lemma populate_listed_as w a : listed_as w a (populate (categories w) a).
Proof. split; [reflexivity | apply populate_resolved]. Qed.

Lemma populate_all_listed_as w (l : list Animal) :
  Forall2 (listed_as w) l (populate (categories w) <$> l).
Proof.
  apply Forall2_fmap_r, Forall_Forall2_diag, Forall_forall.
  intros a _. apply populate_listed_as.
Qed.

(** X12: the list of all animals is always answered 200, also for an empty
    store: it has the animals of the store in their order, each shown with
    its own identifier, name, image and timestamps, and with its category
    field resolved to a category of the store that has the referenced
    identifier, or to null when there is none; the store is unchanged. *)
Theorem getAnimals_lists_every_animal req w :
  exists listed,
    fst (getAnimals req w) = mkResponse 200 (JAnimals listed) /\
    Forall2 (listed_as w) (animals w) listed /\
    same_data w (snd (getAnimals req w)).
Proof.
  rewrite getAnimals_eq. eexists. split; [reflexivity|].
  split; [apply populate_all_listed_as | apply same_data_record].
Qed.

(** X13: the list of the animals of a well-formed category identifier is
    answered 404 when no animal refers to the identifier, whether the
    category exists or not, and otherwise 200 with the animals that refer
    to it, in the order of the store, each shown with its own identifier,
    name, image and timestamps and with its category field resolved; the
    store is unchanged. *)
Theorem getAnimalsByCategoryId_by_reference req w id o :
  params req !! "categoryId" = Some id ->
  ObjectId.of_string id = Some o ->
  (animals_of o w = [] ->
   fst (getAnimalsByCategoryId req w)
   = mkResponse 404 (JMessage "No animals found in this category")) /\
  (animals_of o w <> [] ->
   exists listed,
     fst (getAnimalsByCategoryId req w) = mkResponse 200 (JAnimals listed) /\
     Forall2 (listed_as w) (animals_of o w) listed) /\
  same_data w (snd (getAnimalsByCategoryId req w)).
Proof.
  intros Hid Ho. rewrite (getAnimalsByCategoryId_valid req w id o Hid Ho).
  cbn [fst snd]. split; [|split; [|apply same_data_record]].
  - intros ->. reflexivity.
  - intros Hne. destruct (animals_of o w) as [|a l] eqn:E; [congruence|].
    eexists. split; [reflexivity|]. apply populate_all_listed_as.
Qed.

Lemma getAnimalsByCategoryId_by_reference_witness :
  (animals_of 0 reptile_world = [] ->
   fst (getAnimalsByCategoryId (by_categoryId id0) reptile_world)
   = mkResponse 404 (JMessage "No animals found in this category")) /\
  (animals_of 0 reptile_world <> [] ->
   exists listed,
     fst (getAnimalsByCategoryId (by_categoryId id0) reptile_world)
     = mkResponse 200 (JAnimals listed) /\
     Forall2 (listed_as reptile_world) (animals_of 0 reptile_world) listed) /\
  same_data reptile_world
    (snd (getAnimalsByCategoryId (by_categoryId id0) reptile_world)).
Proof.
  apply (getAnimalsByCategoryId_by_reference (by_categoryId id0) reptile_world
           id0 0); reflexivity.
Defined.

(** X14: the list of the animals of a category name is answered 404 with
    'Category not found' when no category has the name, and 404 with 'No
    animals found in this category' when the first category of this name
    has no animal. *)
Theorem getAnimalsByCategoryName_not_found req w :
  (category_named (params req !! "categoryName") w = None ->
   fst (getAnimalsByCategoryName req w)
   = mkResponse 404 (JMessage "Category not found")) /\
  (forall c,
     category_named (params req !! "categoryName") w = Some c ->
     animals_of (c_id c) w = [] ->
     fst (getAnimalsByCategoryName req w)
     = mkResponse 404 (JMessage "No animals found in this category")).
Proof.
  rewrite getAnimalsByCategoryName_eq. unfold category_named. split.
  - intros ->. reflexivity.
  - intros c -> ->. reflexivity.
Qed.

(** X15: when a category has the requested name, the list of animals by
    category name is the answer that the list by category identifier gives
    for the identifier of the first category of this name. *)
Theorem getAnimalsByCategoryName_as_by_id req req' w c :
  category_named (params req !! "categoryName") w = Some c ->
  ObjectId.in_range (c_id c) ->
  params req' !! "categoryId" = Some (ObjectId.to_string (c_id c)) ->
  fst (getAnimalsByCategoryName req w) = fst (getAnimalsByCategoryId req' w).
Proof.
  intros Hc Hr Hid. rewrite getAnimalsByCategoryName_eq.
  unfold category_named in Hc. rewrite Hc.
  rewrite (getAnimalsByCategoryId_valid req' w _ (c_id c) Hid
             (ObjectIdFacts.of_string_to_string _ Hr)).
  reflexivity.
Qed.

Lemma getAnimalsByCategoryName_as_by_id_witness :
  fst (getAnimalsByCategoryName (request [("categoryName", "Reptiles")] [] None)
                                reptile_world)
  = fst (getAnimalsByCategoryId (by_categoryId id0) reptile_world).
Proof.
  apply (getAnimalsByCategoryName_as_by_id
           (request [("categoryName", "Reptiles")] [] None)
           (by_categoryId id0) reptile_world reptiles).
  - reflexivity.
  - reflexivity.
  - reflexivity.
Defined.

(** X16: the five controllers that read the store leave the categories,
    the animals, the supply of identifiers and the upload directory as
    they were, whatever the request and whatever they answer. *)
Theorem reads_change_nothing req w :
  same_data w (snd (getCategories req w)) /\
  same_data w (snd (getCategoryById req w)) /\
  same_data w (snd (getAnimals req w)) /\
  same_data w (snd (getAnimalsByCategoryId req w)) /\
  same_data w (snd (getAnimalsByCategoryName req w)).
Proof.
  unfold same_data.
  repeat match goal with |- (_ /\ _ /\ _ /\ _) /\ _ => split end;
    unfold getCategories, getCategoryById, getAnimals, getAnimalsByCategoryId,
      getAnimalsByCategoryName;
    split_paths; repeat split.
Qed.

Lemma getAnimalsByCategoryName_not_found_witness :
  fst (getAnimalsByCategoryName (by_categoryName "Birds") lonely_world)
  = mkResponse 404 (JMessage "Category not found") /\
  fst (getAnimalsByCategoryName (by_categoryName "Reptiles") lonely_world)
  = mkResponse 404 (JMessage "No animals found in this category").
Proof.
  split.
  - apply (proj1 (getAnimalsByCategoryName_not_found
                    (by_categoryName "Birds") lonely_world)).
    reflexivity.
  - apply (proj2 (getAnimalsByCategoryName_not_found
                    (by_categoryName "Reptiles") lonely_world) reptiles);
      reflexivity.
Defined.

(** ** Animals: deletion *)

(** X17: in a store with unique identifiers, after the deletion of an
    animal under a well-formed identifier no animal has this identifier
    and every other animal is still there; a second deletion is answered
    200 again and changes no animal. *)
Theorem deleteAnimal_then_gone req w id o :
  params req !! "id" = Some id ->
  ObjectId.of_string id = Some o ->
  unique_ids w ->
  let w' := snd (deleteAnimal req w) in
  Forall (fun a => a_id a <> o) (animals w') /\
  (forall a, a ∈ animals w -> a_id a <> o -> a ∈ animals w') /\
  fst (deleteAnimal req w') = mkResponse 200 (JMessage "Animal deleted successfully") /\
  animals (snd (deleteAnimal req w')) = animals w'.
Proof.
  intros Hid Ho [_ Hnd] w'. subst w'.
  rewrite (deleteAnimal_valid req w id o Hid Ho). cbn [snd animals].
  pose proof (animals_remove_gone o (animals w) Hnd) as Hgone.
  split; [exact Hgone|]. split.
  - intros a Ha Hne. now apply animals_remove_others.
  - rewrite (deleteAnimal_valid req _ id o Hid Ho). cbn [fst snd animals].
    split; [reflexivity|]. apply remove_first_none.
    eapply Forall_impl; [exact Hgone|]. intros a Ha.
    apply bool_decide_eq_false. congruence.
Qed.

Lemma deleteAnimal_then_gone_witness :
  let w' := snd (deleteAnimal (by_id id1) reptile_world) in
  Forall (fun a => a_id a <> 1) (animals w') /\
  (forall a, a ∈ animals reptile_world -> a_id a <> 1 -> a ∈ animals w') /\
  fst (deleteAnimal (by_id id1) w')
  = mkResponse 200 (JMessage "Animal deleted successfully") /\
  animals (snd (deleteAnimal (by_id id1) w')) = animals w'.
Proof.
  apply (deleteAnimal_then_gone (by_id id1) reptile_world id1 1);
    try reflexivity.
  exact reptile_world_unique.
Defined.

(** X18: whatever the request, deleting an animal leaves the categories
    and the upload directory as they were: the image file of a deleted
    animal stays on disk. *)
Theorem deleteAnimal_keeps_categories_and_files req w :
  categories (snd (deleteAnimal req w)) = categories w /\
  uploads (snd (deleteAnimal req w)) = uploads w.
Proof. unfold deleteAnimal. split_paths; split; reflexivity. Qed.

(** ** Animals: creation *)

(** X19: in a well-formed store whose supply of identifiers is within 96
    bits, a request to create an animal with a
    name, an uploaded image and the well-formed identifier of an existing
    category is answered 201 with the new animal: it has the name of the
    request, the path of the stored image under [/uploads/animals/], and a
    reference to a category of the store, the one the identifier looks
    up. The animal is appended to the animals; the categories are
    unchanged. *)
Theorem addAnimal_creates now req w id o c name f :
  params req !! "categoryId" = Some id ->
  ObjectId.of_string id = Some o ->
  List.find (has_id (Some o)) (categories w) = Some c ->
  body req !! "name" = Some name ->
  name <> "" ->
  file req = Some f ->
  store_wf w ->
  next_oid w < 2 ^ 96 ->
  exists a w',
    addAnimal now req w
    = (mkResponse 201 (JAnimalAdded "Animal added successfully." a), w') /\
    a_name a = Some name /\
    a_image a = Some ("/uploads/animals/" ++ filename f) /\
    a_category a = Some (c_id c) /\
    a_createdAt a = Some now /\
    c ∈ categories w' /\
    animals w' = (animals w ++ [a])%list /\
    categories w' = categories w.
Proof.
  intros Hid Ho Hfind Hname Hne Hfile [_ Has] Hsupply.
  do 2 eexists. split.
  - apply (addAnimal_created now req w id o c name f); try assumption.
    apply existsb_none. eapply Forall_impl; [exact Has|].
    intros a Ha. cbn in Ha. apply bool_decide_eq_false. intros E.
    injection E as E. rewrite N.mod_small in E by exact Hsupply. lia.
  - cbn [a_name a_image a_category a_createdAt categories animals].
    repeat (split; [reflexivity|]). split; [|split; reflexivity].
    now apply find_has_id_Some in Hfind as [Hin _].
Qed.

Lemma addAnimal_creates_witness :
  exists a w',
    addAnimal 30 (new_animal id0 "Gecko" iguana_png) reptile_world
    = (mkResponse 201 (JAnimalAdded "Animal added successfully." a), w') /\
    a_name a = Some "Gecko" /\
    a_image a = Some ("/uploads/animals/" ++ filename iguana_png) /\
    a_category a = Some (c_id reptiles) /\
    a_createdAt a = Some 30 /\
    reptiles ∈ categories w' /\
    animals w' = (animals reptile_world ++ [a])%list /\
    categories w' = categories reptile_world.
Proof.
  apply (addAnimal_creates 30 (new_animal id0 "Gecko" iguana_png) reptile_world
           id0 0 reptiles "Gecko" iguana_png); try reflexivity.
  - discriminate.
  - exact reptile_world_wf.
Defined.


(** ** The route that creates an animal *)








(** X22: on the route, a request whose first file is not the field
    [image] is failed by the middleware with LIMIT_UNEXPECTED_FILE for
    this field: it is answered 500 by the default error handler, nothing
    is written and the controller does not run. *)
Theorem post_animal_unexpected_field t_upload t_save req w p rest :
  parts req = p :: rest ->
  fieldname p <> "image" ->
  post_animal t_upload t_save req w
  = (mkResponse 500 (ErrorPage (MulterError "LIMIT_UNEXPECTED_FILE" (fieldname p))),
     w).
Proof.
  intros Hparts Hfield. unfold post_animal, uploadAnimalImage. rewrite Hparts.
  rewrite (bool_decide_eq_false_2 _ Hfield). reflexivity.
Qed.

Lemma post_animal_unexpected_field_witness :
  post_animal 20 30
    (upload_request [("categoryId", id0)] [("name", "Gecko")]
                    (mkPart "photo" "iguana.png" 1024))
    reptile_world
  = (mkResponse 500 (ErrorPage (MulterError "LIMIT_UNEXPECTED_FILE" "photo")),
     reptile_world).
Proof.
  apply (post_animal_unexpected_field 20 30
           (upload_request [("categoryId", id0)] [("name", "Gecko")]
                           (mkPart "photo" "iguana.png" 1024))
           reptile_world (mkPart "photo" "iguana.png" 1024) []).
  - reflexivity.
  - discriminate.
Defined.

(** X23: on the route, a request with more than one file is answered 500
    and the controller does not run: the collections and the log of calls
    are unchanged. When the first file is the field [image], no file is
    left under its storage name. *)
Theorem post_animal_second_file t_upload t_save req w p q rest :
  parts req = p :: q :: rest ->
  let w' := snd (post_animal t_upload t_save req w) in
  status (fst (post_animal t_upload t_save req w)) = 500 /\
  categories w' = categories w /\
  animals w' = animals w /\
  calls w' = calls w /\
  (fieldname p = "image" -> uploads w' !! storage_filename t_upload p = None).
Proof.
  intros Hparts w'. subst w'. unfold post_animal, uploadAnimalImage.
  rewrite Hparts.
  destruct (bool_decide (fieldname p = "image")) eqn:Hf; cbn [negb].
  - destruct (fileSize <=? size p); cbn [fst snd status];
      repeat (split; [reflexivity|]); intros _; apply lookup_delete_eq.
  - cbn [fst snd status]. repeat (split; [reflexivity|]).
    apply bool_decide_eq_false in Hf. intros E. contradiction.
Qed.

Lemma post_animal_second_file_witness :
  let w' := snd (post_animal 20 30
                   (mkRequest (list_to_map [("categoryId", id0)])
                              (list_to_map [("name", "Gecko")])
                              [small_png; small_png] None)
                   reptile_world) in
  status (fst (post_animal 20 30
                 (mkRequest (list_to_map [("categoryId", id0)])
                            (list_to_map [("name", "Gecko")])
                            [small_png; small_png] None)
                 reptile_world)) = 500 /\
  categories w' = categories reptile_world /\
  animals w' = animals reptile_world /\
  calls w' = calls reptile_world /\
  (fieldname small_png = "image" ->
   uploads w' !! storage_filename 20 small_png = None).
Proof.
  apply (post_animal_second_file 20 30
           (mkRequest (list_to_map [("categoryId", id0)])
                      (list_to_map [("name", "Gecko")])
                      [small_png; small_png] None)
           reptile_world small_png small_png []).
  reflexivity.
Defined.

(** ** Names of the stored files *)

Lemma list_ascii_of_string_app s1 s2 :
  list_ascii_of_string (s1 ++ s2)
  = (list_ascii_of_string s1 ++ list_ascii_of_string s2)%list.
Proof.
  induction s1 as [|a s1 IH]; [reflexivity|].
  change (String a s1 ++ s2) with (String a (s1 ++ s2)). cbn. now rewrite IH.
Qed.

Lemma string_app_inv_tail s1 s2 t : s1 ++ t = s2 ++ t -> s1 = s2.
Proof.
  intros H. apply (f_equal list_ascii_of_string) in H.
  rewrite !list_ascii_of_string_app in H. apply app_inv_tail in H.
  apply (f_equal string_of_list_ascii) in H.
  now rewrite !string_of_list_ascii_of_string in H.
Qed.

(** X24: when two uploads are stored under the same file name, they have
    the same original name exactly when they were stored at the same
    time: files of one name uploaded at different times never collide, and
    neither do files of different names uploaded at the same time. *)
Theorem storage_filename_collision t t' p q :
  storage_filename t p = storage_filename t' q ->
  (originalname p = originalname q <-> t = t').
Proof.
  unfold storage_filename. intros H. split.
  - intros E. rewrite E in H. apply string_app_inv_tail in H.
    now apply (inj pretty) in H.
  - intros E. rewrite E in H. apply (inj (String.app _)) in H.
    now apply (inj (String.app _)) in H.
Qed.

Lemma storage_filename_collision_witness :
  originalname small_png = originalname small_png <-> 20 = 20.
Proof.
  apply (storage_filename_collision 20 20 small_png small_png). reflexivity.
Defined.

(** ** Unique identifiers *)

Lemma not_in_ids_categories i l :
  existsb (has_id (Some i)) l = false -> i ∉ c_id <$> l.
Proof.
  intros H Hin. apply list_elem_of_fmap in Hin as (c & -> & Hc).
  apply list_elem_of_In in Hc.
  assert (existsb (has_id (Some (c_id c))) l = true) as E; [|congruence].
  apply existsb_exists. exists c. split; [exact Hc|].
  apply bool_decide_eq_true_2. reflexivity.
Qed.

Lemma not_in_ids_animals i l :
  existsb (animal_has_id (Some i)) l = false -> i ∉ a_id <$> l.
Proof.
  intros H Hin. apply list_elem_of_fmap in Hin as (a & -> & Ha).
  apply list_elem_of_In in Ha.
  assert (existsb (animal_has_id (Some (a_id a))) l = true) as E; [|congruence].
  apply existsb_exists. exists a. split; [exact Ha|].
  apply bool_decide_eq_true_2. reflexivity.
Qed.

Lemma NoDup_snoc_fresh {A} (key : A -> N) (l : list A) x :
  NoDup (key <$> l) -> key x ∉ key <$> l -> NoDup (key <$> (l ++ [x])%list).
Proof.
  intros Hl Hx. rewrite fmap_app. apply NoDup_app. split; [exact Hl|].
  split; [|cbn; apply NoDup_singleton].
  intros y Hy Hy'. cbn in Hy'. apply list_elem_of_singleton in Hy'. congruence.
Qed.

Lemma update_first_keys {A} (key : A -> N) p f (l : list A) :
  (forall x, key (f x) = key x) ->
  key <$> update_first p f l = key <$> l.
Proof.
  intros Hf. induction l as [|x l IH]; [reflexivity|].
  cbn [update_first]. destruct (p x); cbn.
  - now rewrite Hf.
  - now rewrite IH.
Qed.

Ltac solve_unique :=
  match goal with
  | H : unique_ids _ |- unique_ids _ =>
      destruct H as [? ?]; split; cbn [categories animals];
      first
        [ assumption
        | apply (NoDup_snoc_fresh c_id); [assumption|];
          apply not_in_ids_categories; assumption
        | apply (NoDup_snoc_fresh a_id); [assumption|];
          apply not_in_ids_animals; assumption
        | apply (remove_first_NoDup c_id); assumption
        | apply (remove_first_NoDup a_id); assumption
        | rewrite (update_first_keys c_id) by reflexivity; assumption ]
  end.

(** X25: every controller, and the route that creates an animal, keeps
    the identifiers of each collection unique: no request can make two
    categories, or two animals, share an [_id]. *)
Theorem unique_ids_preserved now t_upload req w :
  unique_ids w ->
  unique_ids (snd (getCategories req w)) /\
  unique_ids (snd (getCategoryById req w)) /\
  unique_ids (snd (addCategory now req w)) /\
  unique_ids (snd (updateCategory now req w)) /\
  unique_ids (snd (deleteCategory req w)) /\
  unique_ids (snd (getAnimals req w)) /\
  unique_ids (snd (addAnimal now req w)) /\
  unique_ids (snd (deleteAnimal req w)) /\
  unique_ids (snd (getAnimalsByCategoryId req w)) /\
  unique_ids (snd (getAnimalsByCategoryName req w)) /\
  unique_ids (snd (post_animal t_upload now req w)).
Proof.
  intros Hu.
  assert (Hadd : forall r v, unique_ids v -> unique_ids (snd (addAnimal now r v))).
  { intros r v Hv. unfold addAnimal. split_paths; solve_unique. }
  repeat match goal with |- unique_ids _ /\ _ => split end.
  all: try (apply Hadd; exact Hu).
  all: try (unfold post_animal, uploadAnimalImage;
            destruct (parts req) as [|p rest]; [apply Hadd, Hu|];
            destruct (negb _); [exact Hu|];
            destruct (fileSize <=? size p); [solve_unique|];
            destruct rest; [apply Hadd|]; solve_unique).
  all: unfold getCategories, getCategoryById, addCategory, updateCategory,
         deleteCategory, getAnimals, deleteAnimal, getAnimalsByCategoryId,
         getAnimalsByCategoryName;
       split_paths; solve_unique.
Qed.

Lemma unique_ids_preserved_witness :
  unique_ids (snd (getCategories (new_animal id0 "Gecko" iguana_png) reptile_world)) /\
  unique_ids (snd (getCategoryById (new_animal id0 "Gecko" iguana_png) reptile_world)) /\
  unique_ids (snd (addCategory 30 (new_animal id0 "Gecko" iguana_png) reptile_world)) /\
  unique_ids (snd (updateCategory 30 (new_animal id0 "Gecko" iguana_png) reptile_world)) /\
  unique_ids (snd (deleteCategory (new_animal id0 "Gecko" iguana_png) reptile_world)) /\
  unique_ids (snd (getAnimals (new_animal id0 "Gecko" iguana_png) reptile_world)) /\
  unique_ids (snd (addAnimal 30 (new_animal id0 "Gecko" iguana_png) reptile_world)) /\
  unique_ids (snd (deleteAnimal (new_animal id0 "Gecko" iguana_png) reptile_world)) /\
  unique_ids (snd (getAnimalsByCategoryId (new_animal id0 "Gecko" iguana_png) reptile_world)) /\
  unique_ids (snd (getAnimalsByCategoryName (new_animal id0 "Gecko" iguana_png) reptile_world)) /\
  unique_ids (snd (post_animal 20 30 (new_animal id0 "Gecko" iguana_png) reptile_world)).
Proof.
  apply (unique_ids_preserved 30 20 (new_animal id0 "Gecko" iguana_png) reptile_world).
  exact reptile_world_unique.
Defined.

Lemma store_wf_preserved_witness :
  store_wf (snd (getCategories (new_animal id0 "Gecko" iguana_png) reptile_world)) /\
  store_wf (snd (getCategoryById (new_animal id0 "Gecko" iguana_png) reptile_world)) /\
  store_wf (snd (addCategory 30 (new_animal id0 "Gecko" iguana_png) reptile_world)) /\
  store_wf (snd (updateCategory 30 (new_animal id0 "Gecko" iguana_png) reptile_world)) /\
  store_wf (snd (deleteCategory (new_animal id0 "Gecko" iguana_png) reptile_world)) /\
  store_wf (snd (getAnimals (new_animal id0 "Gecko" iguana_png) reptile_world)) /\
  store_wf (snd (addAnimal 30 (new_animal id0 "Gecko" iguana_png) reptile_world)) /\
  store_wf (snd (deleteAnimal (new_animal id0 "Gecko" iguana_png) reptile_world)) /\
  store_wf (snd (getAnimalsByCategoryId (new_animal id0 "Gecko" iguana_png) reptile_world)) /\
  store_wf (snd (getAnimalsByCategoryName (new_animal id0 "Gecko" iguana_png) reptile_world)) /\
  store_wf (snd (post_animal 20 30 (new_animal id0 "Gecko" iguana_png) reptile_world)).
Proof.
  apply (store_wf_preserved 30 20 (new_animal id0 "Gecko" iguana_png) reptile_world).
  exact reptile_world_wf.
Defined.

(** ** Writes stay in their collection *)


(** ** Cross-origin policy *)

(** X28: a request that sends no origin is allowed in every mode. An
    origin that is sent is allowed in production exactly when it is the
    production domain, and in any other mode, unset included, exactly when
    it is the local development origin; so no origin that is sent is
    allowed both in production and outside it. *)
Theorem cors_origin_policy node_env origin :
  (falsy origin = true -> cors_origin node_env origin = Allowed) /\
  (forall o,
     origin = Some o -> o <> "" ->
     (cors_origin (Some "production") origin = Allowed
      <-> o = "https://your-production-domain.com") /\
     (node_env <> Some "production" ->
      (cors_origin node_env origin = Allowed <-> o = "http://localhost:3000")) /\
     (cors_origin (Some "production") origin = Allowed ->
      node_env <> Some "production" ->
      cors_origin node_env origin = NotAllowed "Not allowed by CORS")).
Proof.
  split.
  - intros H. unfold cors_origin. now rewrite H.
  - intros o -> Hne.
    assert (Hf : falsy (Some o) = false) by (apply bool_decide_eq_false; exact Hne).
    assert (Hprod : cors_origin (Some "production") (Some o) = Allowed
                    <-> o = "https://your-production-domain.com").
    { unfold cors_origin, allowedOrigins. rewrite Hf. cbn [orb].
      rewrite (bool_decide_eq_true_2 (Some "production" = Some "production"))
        by reflexivity.
      destruct (bool_decide (o ∈ ["https://your-production-domain.com"])) eqn:E.
      - apply bool_decide_eq_true, list_elem_of_singleton in E. tauto.
      - apply bool_decide_eq_false in E. rewrite list_elem_of_singleton in E.
        split; [discriminate | contradiction]. }
    assert (Hdev : node_env <> Some "production" ->
                   (cors_origin node_env (Some o) = Allowed
                    <-> o = "http://localhost:3000")).
    { intros Henv. unfold cors_origin, allowedOrigins. rewrite Hf. cbn [orb].
      rewrite (bool_decide_eq_false_2 _ Henv).
      destruct (bool_decide (o ∈ ["http://localhost:3000"])) eqn:E.
      - apply bool_decide_eq_true, list_elem_of_singleton in E. tauto.
      - apply bool_decide_eq_false in E. rewrite list_elem_of_singleton in E.
        split; [discriminate | contradiction]. }
    split; [exact Hprod|]. split; [exact Hdev|].
    intros Hp Henv. apply Hprod in Hp. subst o.
    assert (Hn : cors_origin node_env (Some "https://your-production-domain.com")
                 <> Allowed).
    { intros E. apply (Hdev Henv) in E. discriminate. }
    revert Hn. unfold cors_origin. destruct (_ || _); congruence.
Qed.

Example cors_origin_examples :
  cors_origin None None = Allowed /\
  cors_origin (Some "production") (Some "http://localhost:3000")
  = NotAllowed "Not allowed by CORS" /\
  cors_origin (Some "development") (Some "http://localhost:3000") = Allowed /\
  cors_origin (Some "production") (Some "https://your-production-domain.com")
  = Allowed.
Proof. repeat split. Qed.
